(** * upnpy: the device / service / action model and the IGD tool

    A shallow embedding of [upnpy/ssdp/SSDPDevice.py] and of the [Igd] class
    of [upnpy/tools/igd.py].

    Python objects become records, instance methods become computations in a
    state-and-exception monad whose state is the object together with the
    outside world, and dictionaries become [gmap]s.  The nodes of
    [xml.dom.minidom] and the builtins [str.split] and [str] are modelled
    directly; what the package calls in other modules ([upnpy.utils],
    [upnpy.soap], [minidom.parseString], [urllib.parse.urlparse]) and the
    builtin [int] are section variables. *)

From Stdlib Require Import ZArith String Ascii List Lia DecimalString.
From stdpp Require Import base option list gmap strings.

Local Open Scope string_scope.
Local Open Scope list_scope.
Local Set Warnings "-register-all".

(** ** Python exceptions and values *)

Inductive exn : Type :=
| IndexError
| AttributeError
| TypeError
| ValueError (msg : string)
| KeyError (key : string)
| ExternalError (what : string).

(** The outcome of an expression that may raise. *)
Definition result (A : Type) : Type := exn + A.

Definition rbind {A B : Type} (r : result A) (k : A -> result B) : result B :=
  match r with
  | inl e => inl e
  | inr a => k a
  end.

Notation "x <-r c ; k" := (rbind c (fun x => k))
  (at level 100, c at next level, right associativity, only parsing).

(** A value that is a [str] or [None]. *)
Abbreviation pystr := (option string).

(** [format(v)] inside an f-string. *)
Definition fmt (v : pystr) : string :=
  match v with
  | Some s => s
  | None => "None"
  end.

(** The one-character string holding a double quote. *)
Definition dquote : string := String (ascii_of_nat 34) EmptyString.

(** [a + b] on values that are [str] or [None]. *)
Definition py_add (a b : pystr) : result string :=
  match a, b with
  | Some x, Some y => inr (x +:+ y)
  | _, _ => inl TypeError
  end.

(** Values carried by keyword arguments and by SOAP responses. *)
Inductive pyvalue : Type :=
| VNone
| VStr (s : string)
| VInt (z : Z).

#[export] Instance pyvalue_eq_dec : EqDecision pyvalue.
Proof. solve_decision. Defined.

(** [a == b]. *)
Definition py_eq (a b : pyvalue) : bool := bool_decide (a = b).

(** ** Builtins *)

(** [s.split(sep)] for a one-character separator. *)
Fixpoint split (sep : ascii) (s : string) : list string :=
  match s with
  | EmptyString => [EmptyString]
  | String c r =>
      if decide (c = sep) then EmptyString :: split sep r
      else match split sep r with
           | h :: t => String c h :: t
           | [] => [String c EmptyString]
           end
  end.

(** [l[i]] on a list. *)
Definition index {A : Type} (l : list A) (i : nat) : result A :=
  match l !! i with
  | Some x => inr x
  | None => inl IndexError
  end.

(** [str(n)] on an [int]. *)
Definition py_str (n : Z) : string := NilZero.string_of_int (Z.to_int n).

(** ** [xml.dom.minidom] *)

Inductive node : Type :=
| Element (tagName : string) (childNodes : list node)
| Text (data : string)
| Comment (data : string).

(** A parsed document: the child nodes of the [Document] node. *)
Definition document : Type := list node.

Definition childNodes (n : node) : list node :=
  match n with
  | Element _ cs => cs
  | _ => []
  end.

Definition firstChild (n : node) : option node := head (childNodes n).

Definition nodeValue (n : node) : pystr :=
  match n with
  | Element _ _ => None
  | Text d => Some d
  | Comment d => Some d
  end.

(** The contribution of one child to [_get_elements_by_tagName_helper]:
    the child itself when it is a matching element, then its matching
    descendants, in document order. *)
Fixpoint elements_from (name : string) (n : node) : list node :=
  match n with
  | Element t cs =>
      (if decide (name = "*" \/ t = name) then [n] else [])
        ++ flat_map (elements_from name) cs
  | _ => []
  end.

(** [parent.getElementsByTagName(name)], given the parent's child nodes. *)
Definition getElementsByTagName (children : list node) (name : string) : list node :=
  flat_map (elements_from name) children.

(** [elems[0].firstChild.nodeValue]. *)
Definition first_node_value (elems : list node) : result pystr :=
  e <-r index elems 0;
  match firstChild e with
  | None => inl AttributeError
  | Some c => inr (nodeValue c)
  end.

(** ** The state-and-exception monad

    A computation runs on a state [S] and either raises or returns; the
    state it leaves behind is kept in both cases, as assignments made before
    a [raise] are. *)

Definition M (S A : Type) : Type := S -> result A * S.

Definition ret {S A : Type} (a : A) : M S A := fun s => (inr a, s).

Definition raise {S A : Type} (e : exn) : M S A := fun s => (inl e, s).

Definition bind {S A B : Type} (c : M S A) (k : A -> M S B) : M S B :=
  fun s =>
    match c s with
    | (inl e, s') => (inl e, s')
    | (inr a, s') => k a s'
    end.

Definition lift {S A : Type} (r : result A) : M S A := fun s => (r, s).

Definition modify {S : Type} (f : S -> S) : M S unit := fun s => (inr tt, f s).

(** [try: body / except IndexError: handler]. *)
Definition try_except_IndexError {S A : Type} (body handler : M S A) : M S A :=
  fun s =>
    match body s with
    | (inl IndexError, s') => handler s'
    | r => r
    end.

Notation "x <- c ;; k" := (bind c (fun x => k))
  (at level 100, c at next level, right associativity, only parsing).
Notation "c ;; k" := (bind c (fun _ => k))
  (at level 100, right associativity, only parsing).

(** A method of an object [O] runs on the object and the world [W]. *)

Definition on_self {O W A : Type} (f : O -> A) : M (O * W) A :=
  fun s => (inr (f (fst s)), s).

Definition update_self {O W : Type} (f : O -> O) : M (O * W) unit :=
  modify (fun s => (f (fst s), snd s)).

Definition on_world {O W A : Type} (c : M W A) : M (O * W) A :=
  fun s => let (r, w) := c (snd s) in (r, (fst s, w)).

(** Run the body of a constructor on the fresh object [self]; the object is
    returned when the body completes and lost when it raises. *)
Definition construct {O W A : Type} (self : O) (body : M (O * W) A) : M W O :=
  fun w =>
    match body (self, w) with
    | (inl e, (_, w')) => (inl e, w')
    | (inr _, (self', w')) => (inr self', w')
    end.

(** Every run of [c] takes a state to one related to it by [P], whether it
    returns or raises. *)
Definition preserves {S A : Type} (P : S -> S -> Prop) (c : M S A) : Prop :=
  forall s r s', c s = (r, s') -> P s s'.

(** ** The object model *)

Module Argument.
Record t : Type := {
  name : pystr;
  direction : pystr;
  return_value : pystr;
  related_state_variable : pystr
}.
End Argument.

(** The [service] back-reference of an action is not stored: [execute]
    receives the owning service. *)
Module Action.
Record t : Type := {
  name : pystr;
  arguments : list Argument.t;
  args_in : list Argument.t;
  args_out : list Argument.t
}.
End Action.

(** [Service.actions] is the list [[]] until [_get_actions] assigns the
    dictionary. *)
Inductive actions_t : Type :=
| NoActions
| ActionMap (m : gmap pystr Action.t).

Module Service.
Record t : Type := {
  service : pystr;
  type_ : string;
  version : Z;
  id : pystr;
  scpd_url : pystr;
  control_url : pystr;
  event_sub_url : pystr;
  base_url : pystr;
  actions : actions_t;
  description : pystr
}.

Definition set_actions (a : actions_t) (s : t) : t :=
  {| service := service s; type_ := type_ s; version := version s; id := id s;
     scpd_url := scpd_url s; control_url := control_url s;
     event_sub_url := event_sub_url s; base_url := base_url s;
     actions := a; description := description s |}.

Definition set_description (d : pystr) (s : t) : t :=
  {| service := service s; type_ := type_ s; version := version s; id := id s;
     scpd_url := scpd_url s; control_url := control_url s;
     event_sub_url := event_sub_url s; base_url := base_url s;
     actions := actions s; description := d |}.
End Service.

Module SSDPDevice.
Record t : Type := {
  address : string * Z;
  host : string;
  port : Z;
  response : string;
  description : pystr;
  type_ : pystr;
  base_url : pystr;
  services : gmap string Service.t;
  selected_service : option Service.t
}.

Definition set_description (d : pystr) (s : t) : t :=
  {| address := address s; host := host s; port := port s; response := response s;
     description := d; type_ := type_ s; base_url := base_url s;
     services := services s; selected_service := selected_service s |}.

Definition set_type_ (v : pystr) (s : t) : t :=
  {| address := address s; host := host s; port := port s; response := response s;
     description := description s; type_ := v; base_url := base_url s;
     services := services s; selected_service := selected_service s |}.

Definition set_base_url (v : pystr) (s : t) : t :=
  {| address := address s; host := host s; port := port s; response := response s;
     description := description s; type_ := type_ s; base_url := v;
     services := services s; selected_service := selected_service s |}.

Definition set_services (m : gmap string Service.t) (s : t) : t :=
  {| address := address s; host := host s; port := port s; response := response s;
     description := description s; type_ := type_ s; base_url := base_url s;
     services := m; selected_service := selected_service s |}.
End SSDPDevice.

(** The [Igd] object of the port-mapping tool. *)
Module Igd.
Record t : Type := {
  local_ip : pystr;
  service : Service.t
}.
End Igd.

#[export] Instance Argument_eq_dec : EqDecision Argument.t.
Proof. solve_decision. Defined.

#[export] Instance Action_eq_dec : EqDecision Action.t.
Proof. solve_decision. Defined.

#[export] Instance actions_eq_dec : EqDecision actions_t.
Proof. solve_decision. Defined.

#[export] Instance Service_eq_dec : EqDecision Service.t.
Proof. solve_decision. Defined.

(** [urllib.parse.ParseResult], the two fields the package reads, as they
    are rendered inside an f-string. *)
Record ParseResult : Type := {
  scheme : string;
  netloc : string
}.

(** What the package does to the outside world, in order. *)
Inductive event : Type :=
| EvParse
| EvHttp (url : pystr)
| EvSoap (action : pystr)
| EvPrint (line : string).

(** The outside world: the network and what has been done to it so far. *)
Record World (Net : Type) : Type := {
  net : Net;
  log : list event
}.

Arguments net {Net} _.
Arguments log {Net} _.

(** ** Sample collaborators and documents

    A small network used to run the model: pages served over HTTP, the
    documents they parse to, and the port-mapping table of a gateway. *)

Module Demo.

Record network : Type := {
  pages : gmap string string;
  table : list (gmap string pyvalue)
}.

Definition make_http_request (url : pystr) (n : network) : result string * network :=
  match url with
  | None => (inl AttributeError, n)
  | Some u =>
      match pages n !! u with
      | Some body => (inr body, n)
      | None => (inl (ExternalError "URLError"), n)
      end
  end.

Definition decode (body : string) : result string := inr body.

(** A reader of decimal numerals, the [int] of the sample runs: blanks
    around, an optional sign, decimal digits with single underscores
    between them. *)

Definition is_space (c : ascii) : bool :=
  let n := nat_of_ascii c in
  ((9 <=? n) && (n <=? 13) || (n =? 32))%nat.

Fixpoint lstrip (l : list ascii) : list ascii :=
  match l with
  | c :: r => if is_space c then lstrip r else l
  | [] => []
  end.

Definition strip (l : list ascii) : list ascii :=
  rev (lstrip (rev (lstrip l))).

Definition digit (c : ascii) : option Z :=
  let n := nat_of_ascii c in
  if ((48 <=? n) && (n <=? 57))%nat then Some (Z.of_nat n - 48)%Z else None.

(** Decimal digits, single underscores allowed between two digits. *)
Fixpoint digits_value (acc : Z) (after_digit : bool) (l : list ascii) : option Z :=
  match l with
  | [] => if after_digit then Some acc else None
  | c :: r =>
      if decide (c = "_"%char) then
        if after_digit then digits_value acc false r else None
      else
        match digit c with
        | Some d => digits_value (10 * acc + d)%Z true r
        | None => None
        end
  end.

Definition int (s : string) : result Z :=
  let bad := inl (ValueError "invalid literal for int() with base 10") in
  match strip (list_ascii_of_string s) with
  | "-"%char :: r =>
      match digits_value 0 false r with Some z => inr (- z)%Z | None => bad end
  | "+"%char :: r =>
      match digits_value 0 false r with Some z => inr z | None => bad end
  | r =>
      match digits_value 0 false r with Some z => inr z | None => bad end
  end.


Definition text (s : string) (value : string) : node := Element s [Text value].

Definition service_element (type_ id scpd : string) : node :=
  Element "service"
    [text "serviceType" type_; text "serviceId" id; text "SCPDURL" scpd;
     text "controlURL" "/ctl"; text "eventSubURL" "/evt"].

Definition wanip : node :=
  service_element "urn:schemas-upnp-org:service:WANIPConnection:1"
    "urn:upnp-org:serviceId:WANIPConn1" "/wanip.xml".

Definition wanip_again : node :=
  service_element "urn:schemas-upnp-org:service:WANIPConnection:2"
    "urn:upnp-org:serviceId:WANIPConn1" "/missing.xml".

Definition wanppp : node :=
  service_element "urn:schemas-upnp-org:service:WANPPPConnection:1"
    "urn:upnp-org:serviceId:WANPPPConn1" "/wanppp.xml".

Definition unreachable : node :=
  service_element "urn:schemas-upnp-org:service:Layer3Forwarding:1"
    "urn:upnp-org:serviceId:L3Forwarding1" "/missing.xml".

Definition device_document (url_base services : list node) : document :=
  [Element "root"
     (url_base ++
      [Element "device"
         [text "deviceType" "urn:schemas-upnp-org:device:InternetGatewayDevice:1";
          Element "serviceList" services]])].

Definition argument_element (name direction : string) (retval : list node) : node :=
  Element "argument"
    ([text "name" name; text "direction" direction] ++ retval
     ++ [text "relatedStateVariable" "Var"]).

Definition scpd_document (actions : list node) : document :=
  [Element "scpd" [Element "actionList" actions]].

Definition action_plain : node :=
  Element "action" [text "name" "RequestConnection"].

Definition action_entry : node :=
  Element "action"
    [text "name" "GetGenericPortMappingEntry";
     Element "argumentList"
       [argument_element "NewPortMappingIndex" "in" [];
        argument_element "NewExternalPort" "out" [];
        argument_element "NewProtocol" "out" []]].

Definition action_bad_direction : node :=
  Element "action"
    [text "name" "ForceTermination";
     Element "argumentList"
       [argument_element "NewFirst" "in" [];
        argument_element "NewSecond" "inout" []]].

Definition documents : list (string * document) :=
  [("device with URLBase", device_document [text "URLBase" "http://192.168.1.1:49152/igd"] [wanip]);
   ("device without URLBase", device_document [] [wanip; wanppp]);
   ("device with duplicate", device_document [] [wanip; wanip_again; wanppp]);
   ("device with unreachable service", device_document [] [unreachable; wanip]);
   ("device without services", device_document [] []);
   ("wanip scpd", scpd_document [action_plain; action_entry]);
   ("wanppp scpd", scpd_document [action_plain]);
   ("bad scpd", scpd_document [action_plain; action_bad_direction; action_entry])].

Definition parseString (source : string) : result document :=
  match list_find (fun entry => fst entry = source) documents with
  | Some (_, (_, doc)) => inr doc
  | None => inl (ExternalError "ExpatError")
  end.

(** A URL of the shape [scheme://netloc/path]. *)
Definition urlparse (url : pystr) : result ParseResult :=
  match url with
  | None => inr {| scheme := "b''"; netloc := "b''" |}
  | Some u =>
      match split "/" u with
      | s :: _ :: n :: _ =>
          inr {| scheme := default EmptyString (head (split ":" s)); netloc := n |}
      | _ => inr {| scheme := EmptyString; netloc := EmptyString |}
      end
  end.

(** A response of the shape [Location: url]. *)
Definition parse_http_header (response key : string) : result pystr :=
  match split " " response with
  | k :: v :: _ => if decide (k = key +:+ ":") then inr (Some v) else inr None
  | _ => inr None
  end.

Definition parse_service_id (service_id : pystr) : result string :=
  match service_id with
  | None => inl AttributeError
  | Some s => inr (default EmptyString (last (split ":" s)))
  end.

(** The gateway answers [GetGenericPortMappingEntry] from its table. *)
Definition SOAP_send (service : Service.t) (action : Action.t)
    (kwargs : list (string * pyvalue)) (n : network)
      : result (gmap string pyvalue) * network :=
  match kwargs with
  | [(_, VInt i)] =>
      match table n !! Z.to_nat i with
      | Some entry => (inr entry, n)
      | None => (inl (ExternalError "SOAPError 713"), n)
      end
  | _ => (inl (ExternalError "SOAPError 402"), n)
  end.

Definition home : network :=
  {| pages := list_to_map
       [("http://10.0.0.1:5000/desc.xml", "device without URLBase");
        ("http://10.0.0.1:5000/wanip.xml", "wanip scpd");
        ("http://10.0.0.1:5000/wanppp.xml", "wanppp scpd");
        ("http://10.0.0.1:5000/bad.xml", "bad scpd");
        ("http://10.0.0.1:5000/urlbase.xml", "device with URLBase");
        ("http://10.0.0.1:5000/duplicate.xml", "device with duplicate");
        ("http://10.0.0.1:5000/unreachable.xml", "device with unreachable service");
        ("http://10.0.0.1:5000/empty.xml", "device without services")];
     table := [] |}.

Definition location : string := "Location: http://10.0.0.1:5000/desc.xml".

Definition quiet : World network := {| net := home; log := [] |}.

(** A device after [_get_base_url], before [_get_services]. *)
Definition device (description : string) : SSDPDevice.t :=
  {| SSDPDevice.address := ("10.0.0.1", 1900%Z);
     SSDPDevice.host := "10.0.0.1";
     SSDPDevice.port := 1900%Z;
     SSDPDevice.response := location;
     SSDPDevice.description := Some description;
     SSDPDevice.type_ := Some "urn:schemas-upnp-org:device:InternetGatewayDevice:1";
     SSDPDevice.base_url := Some "http://10.0.0.1:5000";
     SSDPDevice.services := ∅;
     SSDPDevice.selected_service := None |}.

Definition entry_action : Action.t :=
  let index := {| Argument.name := Some "NewPortMappingIndex";
                  Argument.direction := Some "in";
                  Argument.return_value := None;
                  Argument.related_state_variable := Some "Var" |} in
  let port := {| Argument.name := Some "NewExternalPort";
                 Argument.direction := Some "out";
                 Argument.return_value := None;
                 Argument.related_state_variable := Some "Var" |} in
  let protocol := {| Argument.name := Some "NewProtocol";
                     Argument.direction := Some "out";
                     Argument.return_value := None;
                     Argument.related_state_variable := Some "Var" |} in
  {| Action.name := Some "GetGenericPortMappingEntry";
     Action.arguments := [index; port; protocol];
     Action.args_in := [index];
     Action.args_out := [port; protocol] |}.

(** A service before [_get_actions], with its description fetched. *)
Definition fresh_service (description : string) : Service.t :=
  {| Service.service := Some "urn:schemas-upnp-org:service:WANIPConnection:1";
     Service.type_ := "WANIPConnection";
     Service.version := 1%Z;
     Service.id := Some "urn:upnp-org:serviceId:WANIPConn1";
     Service.scpd_url := Some "/wanip.xml";
     Service.control_url := Some "/ctl";
     Service.event_sub_url := Some "/evt";
     Service.base_url := Some "http://10.0.0.1:5000";
     Service.actions := NoActions;
     Service.description := Some description |}.

(** The arguments read from [action_bad_direction]. *)
Definition bad_arguments : list Argument.t :=
  [ {| Argument.name := Some "NewFirst"; Argument.direction := Some "in";
       Argument.return_value := None;
       Argument.related_state_variable := Some "Var" |};
    {| Argument.name := Some "NewSecond"; Argument.direction := Some "inout";
       Argument.return_value := None;
       Argument.related_state_variable := Some "Var" |} ].

Definition wanip_service : Service.t :=
  Service.set_actions
    (ActionMap {[ Some "GetGenericPortMappingEntry" := entry_action ]})
    (fresh_service "wanip scpd").

Definition gateway : Igd.t :=
  {| Igd.local_ip := Some "10.0.0.2"; Igd.service := wanip_service |}.

Definition mapping (port protocol : string) : gmap string pyvalue :=
  {[ "NewExternalPort" := VStr port; "NewProtocol" := VStr protocol ]}.

(** A gateway with two port mappings. *)
Definition forwarding : World network :=
  {| net := {| pages := pages home; table := [mapping "22" "TCP"; mapping "80" "TCP"] |};
     log := [] |}.


(** A second declaration of [GetGenericPortMappingEntry], without arguments. *)
Definition action_entry_short : node :=
  Element "action" [text "name" "GetGenericPortMappingEntry"].

(** The two SOAP errors of the sample gateway. *)
Definition soap_error (what : string) : option (string * string) :=
  if decide (what = "SOAPError 402") then Some ("402", "Invalid Args")
  else if decide (what = "SOAPError 713") then Some ("713", "SpecifiedArrayIndexInvalid")
  else None.

Definition plain_action (name : string) : Action.t :=
  {| Action.name := Some name; Action.arguments := [];
     Action.args_in := []; Action.args_out := [] |}.

(** A service that declares the two port-mapping actions. *)
Definition mapping_service : Service.t :=
  Service.set_actions
    (ActionMap {[ Some "AddPortMapping" := plain_action "AddPortMapping";
                  Some "DeletePortMapping" := plain_action "DeletePortMapping" ]})
    (fresh_service "wanip scpd").


Definition good_argument : Argument.t :=
  {| Argument.name := Some "NewFirst"; Argument.direction := Some "in";
     Argument.return_value := None;
     Argument.related_state_variable := Some "Var" |}.

Definition inout_argument : Argument.t :=
  {| Argument.name := Some "NewSecond"; Argument.direction := Some "inout";
     Argument.return_value := None;
     Argument.related_state_variable := Some "Var" |}.

(** The attributes of [object] and of the class machinery. *)
Definition builtin_attribute (name : string) : bool :=
  bool_decide
    (name ∈ ["__class__"; "__delattr__"; "__dict__"; "__dir__"; "__doc__"; "__eq__";
             "__format__"; "__ge__"; "__getattribute__"; "__getstate__"; "__gt__";
             "__hash__"; "__init_subclass__"; "__le__"; "__lt__"; "__module__";
             "__ne__"; "__new__"; "__reduce__"; "__reduce_ex__"; "__repr__";
             "__setattr__"; "__sizeof__"; "__str__"; "__subclasshook__";
             "__weakref__"]).

(** The service built from [wanip]. *)
Definition wanip_built : Service.t :=
  Service.set_actions
    (ActionMap
       (<[ Some "GetGenericPortMappingEntry" := entry_action ]>
          (<[ Some "RequestConnection" := plain_action "RequestConnection" ]> ∅)))
    (fresh_service "wanip scpd").

(** A device whose second service cannot be fetched, and its network. *)
Definition late_document : document :=
  device_document [] [wanip; unreachable; wanppp].

Definition parseString_late (source : string) : result document :=
  if decide (source = "device with late failure") then inr late_document
  else parseString source.

Definition home_late : network :=
  {| pages := <[ "http://10.0.0.1:5000/late.xml" := "device with late failure" ]>
                (pages home);
     table := [] |}.

Definition location_late : string := "Location: http://10.0.0.1:5000/late.xml".

(** That device and the world when [__init__] reaches [_get_services]. *)
Definition device_late : SSDPDevice.t :=
  {| SSDPDevice.address := ("10.0.0.1", 1900%Z);
     SSDPDevice.host := "10.0.0.1";
     SSDPDevice.port := 1900%Z;
     SSDPDevice.response := location_late;
     SSDPDevice.description := Some "device with late failure";
     SSDPDevice.type_ := Some "urn:schemas-upnp-org:device:InternetGatewayDevice:1";
     SSDPDevice.base_url := Some "http://10.0.0.1:5000";
     SSDPDevice.services := ∅;
     SSDPDevice.selected_service := None |}.

Definition world_late : World network :=
  {| net := home_late;
     log := [EvHttp (Some "http://10.0.0.1:5000/late.xml"); EvParse;
             EvPrint "Device type urn:schemas-upnp-org:device:InternetGatewayDevice:1";
             EvParse] |}.

(** The world once the first service of that device is built. *)
Definition world_late_built : World network :=
  {| net := home_late;
     log := log world_late
            ++ [EvParse; EvHttp (Some "http://10.0.0.1:5000/wanip.xml"); EvParse] |}.

End Demo.

Section Model.

(** *** Collaborators *)

(** The state of the network and of the devices on it. *)
Variable Net : Type.

(** The builtin [int] on a [str]. *)
Variable py_int : string -> result Z.

(** [utils.make_http_request(url).read()]. *)
Variable make_http_request : pystr -> Net -> result string * Net.

(** [bytes.decode()]. *)
Variable decode : string -> result string.

(** [minidom.parseString]. *)
Variable parseString : string -> result document.

(** [urllib.parse.urlparse]. *)
Variable urlparse : pystr -> result ParseResult.

(** [utils.parse_http_header(response, key)]. *)
Variable parse_http_header : string -> string -> result pystr.

(** [utils.parse_service_id]. *)
Variable parse_service_id : pystr -> result string.

(** [SOAP.send(service, action, kwargs)]. *)
Variable SOAP_send :
  Service.t -> Action.t -> list (string * pyvalue) -> Net
  -> result (gmap string pyvalue) * Net.

Local Abbreviation world := (World Net).

Definition record_event (ev : event) (w : world) : world :=
  {| net := net w; log := log w ++ [ev] |}.

Definition emit (ev : event) : M world unit := modify (record_event ev).

Definition http_read (url : pystr) : M world string :=
  emit (EvHttp url) ;;
  fun w =>
    let (r, n) := make_http_request url (net w) in
    (r, {| net := n; log := log w |}).

Definition parse (source : pystr) : M world document :=
  emit EvParse ;;
  match source with
  | None => raise TypeError
  | Some text => lift (parseString text)
  end.

Definition soap (service : Service.t) (action : Action.t)
    (kwargs : list (string * pyvalue)) : M world (gmap string pyvalue) :=
  emit (EvSoap (Action.name action)) ;;
  fun w =>
    let (r, n) := SOAP_send service action kwargs (net w) in
    (r, {| net := n; log := log w |}).

(** *** [SSDPDevice.Service.Action] *)

(** The loop of [Action.__init__]: [(args_in, args_out)] so far. *)
Fixpoint Action_classify (arguments : list Argument.t)
    (args_in args_out : list Argument.t)
    : result (list Argument.t * list Argument.t) :=
  match arguments with
  | [] => inr (args_in, args_out)
  | argument :: rest =>
      let direction := Argument.direction argument in
      if decide (direction = Some "in") then
        Action_classify rest (args_in ++ [argument]) args_out
      else if decide (direction = Some "out") then
        Action_classify rest args_in (args_out ++ [argument])
      else
        inl (ValueError ("No valid argument direction specified by service for"
                         +:+ " argument " +:+ dquote +:+ fmt (Argument.name argument)
                         +:+ dquote +:+ "."))
  end.

Definition Action_init (name : pystr) (argument_list : list Argument.t)
    : result Action.t :=
  io <-r Action_classify argument_list [] [];
  inr {| Action.name := name;
         Action.arguments := argument_list;
         Action.args_in := fst io;
         Action.args_out := snd io |}.

Definition execute (service : Service.t) (action : Action.t)
    (action_kwargs : list (string * pyvalue)) : M world (gmap string pyvalue) :=
  soap service action action_kwargs.

(** A direction that is neither ["in"] nor ["out"]. *)
Definition bad_direction (a : Argument.t) : Prop :=
  Argument.direction a <> Some "in" /\ Argument.direction a <> Some "out".

(** *** [SSDPDevice.Service] *)

Definition _get_service_type (service : pystr) : result string :=
  match service with
  | None => inl AttributeError
  | Some s => index (split ":" s) 3
  end.

Definition _get_service_version (service : pystr) : result Z :=
  match service with
  | None => inl AttributeError
  | Some s => v <-r index (split ":" s) 4; py_int v
  end.

Definition _service_description_required {A : Type}
    (func : M (Service.t * world) A) : M (Service.t * world) A :=
  description <- on_self Service.description ;;
  match description with
  | None => raise (ValueError "No service description retrieved for this service.")
  | Some _ => func
  end.

Definition Service_get_description : M (Service.t * world) pystr :=
  base_url <- on_self Service.base_url ;;
  scpd_url <- on_self Service.scpd_url ;;
  url <- lift (py_add base_url scpd_url) ;;
  service_description <- on_world (http_read (Some url)) ;;
  text <- lift (decode service_description) ;;
  update_self (Service.set_description (Some text)) ;;
  on_self Service.description.

(** The body of the inner loop of [_get_actions]: one [<argument>]. *)
Definition argument_of (argument : node) : result Argument.t :=
  argument_name <-r
    first_node_value (getElementsByTagName (childNodes argument) "name");
  argument_direction <-r
    first_node_value (getElementsByTagName (childNodes argument) "direction");
  argument_return_value <-r
    match first_node_value (getElementsByTagName (childNodes argument) "retval") with
    | inl IndexError => inr None
    | r => r
    end;
  argument_related_state_variable <-r
    first_node_value (getElementsByTagName (childNodes argument) "relatedStateVariable");
  inr {| Argument.name := argument_name;
         Argument.direction := argument_direction;
         Argument.return_value := argument_return_value;
         Argument.related_state_variable := argument_related_state_variable |}.

Fixpoint arguments_of (elements : list node) (action_arguments : list Argument.t)
    : result (list Argument.t) :=
  match elements with
  | [] => inr action_arguments
  | argument :: rest =>
      a <-r argument_of argument;
      arguments_of rest (action_arguments ++ [a])
  end.

(** The body of the outer loop of [_get_actions], up to the call of
    [Action]: the name and the arguments read from one [<action>]. *)
Definition action_fields (action : node) : result (pystr * list Argument.t) :=
  action_name <-r
    first_node_value (getElementsByTagName (childNodes action) "name");
  action_arguments <-r
    match index (getElementsByTagName (childNodes action) "argumentList") 0 with
    | inl IndexError => inr []
    | inl e => inl e
    | inr action_argument_list =>
        arguments_of
          (getElementsByTagName (childNodes action_argument_list) "argument") []
    end;
  inr (action_name, action_arguments).

(** The whole body: the key and the [Action] stored under it. *)
Definition action_of (action : node) : result (pystr * Action.t) :=
  fields <-r action_fields action;
  a <-r Action_init (fst fields) (snd fields);
  inr (fst fields, a).

Fixpoint actions_of (actions : list node) (all_actions : gmap pystr Action.t)
    : result (gmap pystr Action.t) :=
  match actions with
  | [] => inr all_actions
  | action :: rest =>
      ka <-r action_of action;
      actions_of rest (<[ fst ka := snd ka ]> all_actions)
  end.

Definition _get_actions : M (Service.t * world) (gmap pystr Action.t) :=
  _service_description_required (
    service_description <- on_self Service.description ;;
    root <- on_world (parse service_description) ;;
    all_actions <- lift (actions_of (getElementsByTagName root "action") ∅) ;;
    update_self (Service.set_actions (ActionMap all_actions)) ;;
    ret all_actions).

Definition Service_init (service service_id scpd_url control_url event_sub_url
    base_url : pystr) : M world Service.t :=
  type_ <- lift (_get_service_type service) ;;
  version <- lift (_get_service_version service) ;;
  construct
    {| Service.service := service;
       Service.type_ := type_;
       Service.version := version;
       Service.id := service_id;
       Service.scpd_url := scpd_url;
       Service.control_url := control_url;
       Service.event_sub_url := event_sub_url;
       Service.base_url := base_url;
       Service.actions := NoActions;
       Service.description := None |}
    (Service_get_description ;; _get_actions).

(** [Service.__getattr__]: the action whose bound [execute] is returned. *)
Definition Service_getattr (self : Service.t) (action_name : string)
    : result Action.t :=
  match Service.actions self with
  | NoActions => inl TypeError
  | ActionMap m =>
      match m !! Some action_name with
      | Some a => inr a
      | None => inl (KeyError action_name)
      end
  end.

(** [service.action_name(kwargs)] for a name that ordinary attribute lookup
    does not find on the service: [__getattr__], then the call of the
    [execute] it returned. *)
Definition Service_call (self : Service.t) (action_name : string)
    (kwargs : list (string * pyvalue)) : M world (gmap string pyvalue) :=
  action <- lift (Service_getattr self action_name) ;;
  execute self action kwargs.

(** *** [SSDPDevice] *)

Definition _device_description_required {A : Type}
    (func : M (SSDPDevice.t * world) A) : M (SSDPDevice.t * world) A :=
  description <- on_self SSDPDevice.description ;;
  match description with
  | None => raise (ValueError "No device description retrieved for this device.")
  | Some _ => func
  end.

Definition _base_url_required {A : Type}
    (func : M (SSDPDevice.t * world) A) : M (SSDPDevice.t * world) A :=
  base_url <- on_self SSDPDevice.base_url ;;
  match base_url with
  | None => raise (ValueError "No base URL was retrieved for this device.")
  | Some _ => func
  end.

Definition SSDPDevice_get_description (url : pystr)
    : M (SSDPDevice.t * world) string :=
  device_description <- on_world (http_read url) ;;
  update_self (SSDPDevice.set_description (Some device_description)) ;;
  lift (decode device_description).

Definition _get_type : M (SSDPDevice.t * world) pystr :=
  _device_description_required (
    description <- on_self SSDPDevice.description ;;
    root <- on_world (parse description) ;;
    device_type <- lift (first_node_value (getElementsByTagName root "deviceType")) ;;
    on_world (emit (EvPrint ("Device type " +:+ fmt device_type))) ;;
    update_self (SSDPDevice.set_type_ device_type) ;;
    on_self SSDPDevice.type_).

Definition _get_base_url : M (SSDPDevice.t * world) string :=
  _device_description_required (
    response <- on_self SSDPDevice.response ;;
    location_header_value <- lift (parse_http_header response "Location") ;;
    description <- on_self SSDPDevice.description ;;
    root <- on_world (parse description) ;;
    base_url <-
      try_except_IndexError
        (url_base <- lift (first_node_value (getElementsByTagName root "URLBase")) ;;
         parsed_url <- lift (urlparse url_base) ;;
         ret (scheme parsed_url +:+ "://" +:+ netloc parsed_url))
        (parsed_url <- lift (urlparse location_header_value) ;;
         ret (scheme parsed_url +:+ "://" +:+ netloc parsed_url)) ;;
    update_self (SSDPDevice.set_base_url (Some base_url)) ;;
    ret base_url).

(** The five values [_get_services] reads from one [<service>]. *)
Record service_fields_t : Type := {
  f_service_string : pystr;
  f_service_id : pystr;
  f_scpd_url : pystr;
  f_control_url : pystr;
  f_event_sub_url : pystr
}.

Definition service_fields (service : node) : result service_fields_t :=
  service_string <-r
    first_node_value (getElementsByTagName (childNodes service) "serviceType");
  service_id <-r
    first_node_value (getElementsByTagName (childNodes service) "serviceId");
  scpd_url <-r
    first_node_value (getElementsByTagName (childNodes service) "SCPDURL");
  control_url <-r
    first_node_value (getElementsByTagName (childNodes service) "controlURL");
  event_sub_url <-r
    first_node_value (getElementsByTagName (childNodes service) "eventSubURL");
  inr {| f_service_string := service_string; f_service_id := service_id;
         f_scpd_url := scpd_url; f_control_url := control_url;
         f_event_sub_url := event_sub_url |}.

(** The body of the loop of [_get_services]: one [<service>]. *)
Definition service_entry (base_url : pystr) (service : node)
    (device_services : gmap string Service.t) : M world (gmap string Service.t) :=
  fields <- lift (service_fields service) ;;
  parsed_service_id <- lift (parse_service_id (f_service_id fields)) ;;
  match device_services !! parsed_service_id with
  | Some _ => ret device_services
  | None =>
      new_service <-
        Service_init (f_service_string fields) (f_service_id fields)
          (f_scpd_url fields) (f_control_url fields) (f_event_sub_url fields)
          base_url ;;
      ret (<[ parsed_service_id := new_service ]> device_services)
  end.

Fixpoint services_of (base_url : pystr) (elements : list node)
    (device_services : gmap string Service.t) : M world (gmap string Service.t) :=
  match elements with
  | [] => ret device_services
  | service :: rest =>
      device_services' <- service_entry base_url service device_services ;;
      services_of base_url rest device_services'
  end.

Definition _get_services : M (SSDPDevice.t * world) (gmap string Service.t) :=
  _device_description_required (_base_url_required (
    services <- on_self SSDPDevice.services ;;
    (if decide (services = ∅) then
       description <- on_self SSDPDevice.description ;;
       root <- on_world (parse description) ;;
       base_url <- on_self SSDPDevice.base_url ;;
       device_services <-
         on_world (services_of base_url (getElementsByTagName root "service") ∅) ;;
       update_self (SSDPDevice.set_services device_services)
     else ret tt) ;;
    on_self SSDPDevice.services)).

Definition SSDPDevice_init (address : string * Z) (response : string)
    : M world SSDPDevice.t :=
  construct
    {| SSDPDevice.address := address;
       SSDPDevice.host := fst address;
       SSDPDevice.port := snd address;
       SSDPDevice.response := response;
       SSDPDevice.description := None;
       SSDPDevice.type_ := None;
       SSDPDevice.base_url := None;
       SSDPDevice.services := ∅;
       SSDPDevice.selected_service := None |}
    (location <- lift (parse_http_header response "Location") ;;
     SSDPDevice_get_description location ;;
     _get_type ;;
     _get_base_url ;;
     _get_services).

(** The object [SSDPDevice.__init__] starts from. *)
Definition SSDPDevice_fresh (address : string * Z) (response : string)
    : SSDPDevice.t :=
  {| SSDPDevice.address := address;
     SSDPDevice.host := fst address;
     SSDPDevice.port := snd address;
     SSDPDevice.response := response;
     SSDPDevice.description := None;
     SSDPDevice.type_ := None;
     SSDPDevice.base_url := None;
     SSDPDevice.services := ∅;
     SSDPDevice.selected_service := None |}.

(** The calls of [SSDPDevice.__init__] that come before [_get_services]. *)
Definition SSDPDevice_init_head (response : string)
    : M (SSDPDevice.t * world) string :=
  location <- lift (parse_http_header response "Location") ;;
  SSDPDevice_get_description location ;;
  _get_type ;;
  _get_base_url.

(** *** [Igd] *)

(** [mapping[key]] on a dictionary. *)
Definition getitem (mapping : gmap string pyvalue) (key : string) : result pyvalue :=
  match mapping !! key with
  | Some v => inr v
  | None => inl (KeyError key)
  end.

(** The loop [for i in count()] of [GetPortMappings], from index [i]; the
    loop has no bound of its own, [fuel] bounds the number of queries. *)
Fixpoint GetPortMappings_from (fuel : nat) (self : Igd.t) (i : nat)
    (mappings : list (gmap string pyvalue)) (w : world)
    : option (list (gmap string pyvalue) * world) :=
  match fuel with
  | O => None
  | S fuel' =>
      match Service_call (Igd.service self) "GetGenericPortMappingEntry"
              [("NewPortMappingIndex", VInt (Z.of_nat i))] w with
      | (inr mapping, w') =>
          GetPortMappings_from fuel' self (S i) (mappings ++ [mapping]) w'
      | (inl _, w') => Some (mappings, w')
      end
  end.

Definition GetPortMappings (fuel : nat) (self : Igd.t) (w : world)
    : option (list (gmap string pyvalue) * world) :=
  GetPortMappings_from fuel self 0 [] w.

(** The loop of [HasPortMapping] over the mappings. *)
Fixpoint HasPortMapping_scan (mappings : list (gmap string pyvalue))
    (port : Z) (protocol : pyvalue) : result bool :=
  match mappings with
  | [] => inr false
  | mapping :: rest =>
      external_port <-r getitem mapping "NewExternalPort";
      if py_eq external_port (VStr (py_str port)) then
        mapping_protocol <-r getitem mapping "NewProtocol";
        if py_eq mapping_protocol protocol then inr true
        else HasPortMapping_scan rest port protocol
      else HasPortMapping_scan rest port protocol
  end.

Definition HasPortMapping (fuel : nat) (self : Igd.t) (port : Z)
    (protocol : pyvalue) (w : world) : option (result bool * world) :=
  match GetPortMappings fuel self w with
  | None => None
  | Some (mappings, w') => Some (HasPortMapping_scan mappings port protocol, w')
  end.

(** [isinstance(e, upnpy.exceptions.SOAPError)] for an exception raised
    by a collaborator, with [e.error] and [e.description] as [str.format]
    renders them. *)
Variable soap_error : string -> option (string * string).

(** What a method of [Igd] raises: an [IgdError], or an exception it did
    not catch. *)
Inductive igd_exn : Type :=
| IgdError (message : string)
| Uncaught (e : exn).

(** [str.format] on one value. *)
Definition py_format (v : pyvalue) : string :=
  match v with
  | VNone => "None"
  | VStr s => s
  | VInt z => py_str z
  end.

(** A [str] or [None] as a keyword argument. *)
Definition value_of (v : pystr) : pyvalue :=
  match v with
  | None => VNone
  | Some s => VStr s
  end.

Definition AddPortMapping_kwargs (self : Igd.t) (port : Z)
    (protocol description : pyvalue) : list (string * pyvalue) :=
  [("NewRemoteHost", VStr EmptyString);
   ("NewExternalPort", VInt port);
   ("NewProtocol", protocol);
   ("NewInternalPort", VInt port);
   ("NewInternalClient", value_of (Igd.local_ip self));
   ("NewEnabled", VInt 1);
   ("NewPortMappingDescription", description);
   ("NewLeaseDuration", VInt 0)].

Definition AddPortMapping (self : Igd.t) (port : Z) (protocol description : pyvalue)
    (w : world) : (igd_exn + unit) * world :=
  match Service_call (Igd.service self) "AddPortMapping"
          (AddPortMapping_kwargs self port protocol description) w with
  | (inr _, w') => (inr tt, w')
  | (inl (ExternalError what), w') =>
      match soap_error what with
      | Some (error, error_description) =>
          (inl (IgdError ("Failed to add mapping for " +:+ py_format protocol
                          +:+ " port " +:+ py_str port +:+ ", error " +:+ error
                          +:+ ": " +:+ error_description)), w')
      | None => (inl (Uncaught (ExternalError what)), w')
      end
  | (inl e, w') => (inl (Uncaught e), w')
  end.

Definition DeletePortMapping_kwargs (port : Z) (protocol : pyvalue)
    : list (string * pyvalue) :=
  [("NewRemoteHost", VStr EmptyString);
   ("NewExternalPort", VInt port);
   ("NewProtocol", protocol)].

Definition DeletePortMapping (self : Igd.t) (port : Z) (protocol : pyvalue)
    (w : world) : (igd_exn + unit) * world :=
  match Service_call (Igd.service self) "DeletePortMapping"
          (DeletePortMapping_kwargs port protocol) w with
  | (inr _, w') => (inr tt, w')
  | (inl (ExternalError what), w') =>
      match soap_error what with
      | Some (error, error_description) =>
          (inl (IgdError ("Failed to delete mapping for " +:+ py_format protocol
                          +:+ " port " +:+ py_str port +:+ ", error " +:+ error
                          +:+ ": " +:+ error_description)), w')
      | None => (inl (Uncaught (ExternalError what)), w')
      end
  | (inl e, w') => (inl (Uncaught e), w')
  end.

(** The query [GetPortMappings] makes for index [i]. *)
Definition entry_query (self : Igd.t) (i : nat) : M world (gmap string pyvalue) :=
  Service_call (Igd.service self) "GetGenericPortMappingEntry"
    [("NewPortMappingIndex", VInt (Z.of_nat i))].

(** The enumeration as it is described: the results of the queries for the
    indices [i], [i + 1], ... in order, up to and excluding the first query
    that raises.  [entries self i w mappings w'] relates the world before
    the first query to the mappings collected and to the world after the
    query that raised. *)
Inductive entries (self : Igd.t)
  : nat -> world -> list (gmap string pyvalue) -> world -> Prop :=
| entries_stop (i : nat) (w w' : world) (e : exn) :
    entry_query self i w = (inl e, w') ->
    entries self i w [] w'
| entries_next (i : nat) (w w1 w' : world) (mapping : gmap string pyvalue)
    (rest : list (gmap string pyvalue)) :
    entry_query self i w = (inr mapping, w1) ->
    entries self (S i) w1 rest w' ->
    entries self i w (mapping :: rest) w'.



(** *** Attribute access on a service *)

(** The names ordinary attribute lookup finds on every instance without
    its class defining them: those of [object] and of the class machinery
    ([__class__], [__dict__], [__doc__], ...). *)
Variable builtin_attribute : string -> bool.

(** The names [Service] defines: the attributes [__init__] sets, and the
    methods and the nested class of the class. *)
Definition Service_defined_attribute (name : string) : bool :=
  bool_decide
    (name ∈ ["service"; "type_"; "version"; "id"; "scpd_url"; "control_url";
             "event_sub_url"; "base_url"; "actions"; "description";
             "__init__"; "_get_description"; "_get_actions"; "_get_service_type";
             "_get_service_version"; "__getattr__"; "Action"]).

(** The names ordinary attribute lookup finds on a service. *)
Definition Service_attribute (name : string) : bool :=
  Service_defined_attribute name || builtin_attribute name.

(** What [service.name] evaluates to: the attribute the object has, or the
    bound [execute] of the action [__getattr__] found. *)
Inductive resolved : Type :=
| Ordinary
| Execute (a : Action.t).

(** [service.name]: ordinary lookup first, [__getattr__] only when it finds
    nothing. *)
Definition Service_getattribute (self : Service.t) (name : string)
    : result resolved :=
  if Service_attribute name then inr Ordinary
  else a <-r Service_getattr self name; inr (Execute a).

(** A direction that is ["in"] or ["out"]. *)
Definition good_direction (a : Argument.t) : Prop :=
  Argument.direction a = Some "in" \/ Argument.direction a = Some "out".

(** The message of the [ValueError] raised for an argument. *)
Definition direction_message (a : Argument.t) : string :=
  "No valid argument direction specified by service for"
  +:+ " argument " +:+ dquote +:+ fmt (Argument.name a) +:+ dquote +:+ ".".

(** What no method of a device changes once [__init__] has set it. *)
Definition same_identity (s s' : SSDPDevice.t * world) : Prop :=
  SSDPDevice.address s.1 = SSDPDevice.address s'.1
  /\ SSDPDevice.host s.1 = SSDPDevice.host s'.1
  /\ SSDPDevice.port s.1 = SSDPDevice.port s'.1
  /\ SSDPDevice.response s.1 = SSDPDevice.response s'.1
  /\ SSDPDevice.selected_service s.1 = SSDPDevice.selected_service s'.1.

(** What [_get_base_url] and [_get_services] leave alone besides. *)
Definition same_description (s s' : SSDPDevice.t * world) : Prop :=
  SSDPDevice.description s.1 = SSDPDevice.description s'.1
  /\ SSDPDevice.type_ s.1 = SSDPDevice.type_ s'.1.

(** ** Properties of the model *)

Ltac run :=
  unfold bind, ret, raise, lift, modify, on_self, update_self, on_world,
    construct, try_except_IndexError, rbind in *; simpl in *.

(** *** The monad *)

Lemma bind_returns {S A B : Type} (c : M S A) (k : A -> M S B) s b s2 :
  bind c k s = (inr b, s2) ->
  exists a s1, c s = (inr a, s1) /\ k a s1 = (inr b, s2).
Proof.
  unfold bind. destruct (c s) as [[e|a] s1]; [discriminate|]. eauto.
Qed.

Lemma bind_raises {S A B : Type} (c : M S A) (k : A -> M S B) s e s2 :
  bind c k s = (inl e, s2) ->
  c s = (inl e, s2) \/ exists a s1, c s = (inr a, s1) /\ k a s1 = (inl e, s2).
Proof.
  unfold bind. destruct (c s) as [[e'|a] s1]; intros H;
    [left; inversion H; reflexivity | right; eauto].
Qed.

Section Preserves.
Context {S : Type} (P : S -> S -> Prop).
Hypothesis P_refl : forall s, P s s.
Hypothesis P_trans : forall s1 s2 s3, P s1 s2 -> P s2 s3 -> P s1 s3.

Lemma preserves_ret {A : Type} (a : A) : preserves P (ret a).
Proof. intros s r s' H. inversion H. apply P_refl. Qed.

Lemma preserves_raise {A : Type} (e : exn) : preserves P (@raise S A e).
Proof. intros s r s' H. inversion H. apply P_refl. Qed.

Lemma preserves_lift {A : Type} (x : result A) : preserves P (lift x).
Proof. intros s r s' H. inversion H. apply P_refl. Qed.

Lemma preserves_bind {A B : Type} (c : M S A) (k : A -> M S B) :
  preserves P c -> (forall a, preserves P (k a)) -> preserves P (bind c k).
Proof.
  intros Hc Hk s r s' H. unfold bind in H.
  destruct (c s) as [[e|a] s1] eqn:E.
  - inversion H; subst. eapply Hc; eauto.
  - eapply P_trans; [eapply Hc; eauto | eapply Hk; eauto].
Qed.
End Preserves.

Lemma preserves_on_self {O W A : Type} (P : O * W -> O * W -> Prop) (f : O -> A) :
  (forall s, P s s) -> preserves P (on_self f).
Proof. intros Hr s r s' H. inversion H. apply Hr. Qed.

Lemma preserves_on_world {O W A : Type} (P : O * W -> O * W -> Prop) (c : M W A) :
  (forall o w w', P (o, w) (o, w')) -> preserves P (on_world c).
Proof.
  intros Hw [o w] r s' H. unfold on_world in H. simpl in H.
  destruct (c w) as [r' w']. inversion H. apply Hw.
Qed.

Lemma preserves_update_self {O W : Type} (P : O * W -> O * W -> Prop) (f : O -> O) :
  (forall o w, P (o, w) (f o, w)) -> preserves P (update_self f).
Proof. intros Hf [o w] r s' H. inversion H. apply Hf. Qed.

(** *** Service type strings *)

Lemma index_lookup {A : Type} (l : list A) (i : nat) (d : A) :
  i < length l -> index l i = inr (nth i l d).
Proof.
  intros Hi. unfold index.
  destruct (l !! i) as [x|] eqn:E.
  - f_equal. symmetry. apply nth_lookup_Some with (d := d) in E. exact E.
  - apply lookup_ge_None in E. lia.
Qed.

(** The type name and the version of a service are fixed by [__init__]:
    the methods it calls leave them alone. *)
Definition same_type (s s' : Service.t * world) : Prop :=
  Service.type_ s.1 = Service.type_ s'.1
  /\ Service.version s.1 = Service.version s'.1.

Lemma same_type_refl s : same_type s s.
Proof. split; reflexivity. Qed.

Lemma same_type_trans s1 s2 s3 : same_type s1 s2 -> same_type s2 s3 -> same_type s1 s3.
Proof. intros [? ?] [? ?]. split; congruence. Qed.

Ltac preserves_step :=
  first
    [ apply (preserves_bind same_type same_type_trans);
      [ | intros ? ]
    | apply preserves_on_self; exact same_type_refl
    | apply preserves_on_world; intros; split; reflexivity
    | apply preserves_update_self; intros; split; reflexivity
    | apply preserves_lift; exact same_type_refl
    | apply preserves_ret; exact same_type_refl
    | apply preserves_raise; exact same_type_refl ].

Lemma Service_get_description_same_type : preserves same_type Service_get_description.
Proof. unfold Service_get_description. repeat preserves_step. Qed.

Lemma _get_actions_same_type : preserves same_type _get_actions.
Proof.
  unfold _get_actions, _service_description_required.
  preserves_step; [preserves_step|].
  destruct a; repeat preserves_step.
Qed.

(** C7: a service type string with at least five colon-delimited segments
    yields its fourth segment as the type name and [int] of its fifth
    segment as the version; the constructed [Service] carries both; and
    [urn:schemas-upnp-org:service:WANIPConnection:1] gives [WANIPConnection]
    and, [int("1")] being [1], the version [1]. *)
Theorem service_type_and_version (s : string) :
  5 <= length (split ":" s) ->
  _get_service_type (Some s) = inr (nth 3 (split ":" s) EmptyString)
  /\ _get_service_version (Some s) = py_int (nth 4 (split ":" s) EmptyString)
  /\ (forall service_id scpd_url control_url event_sub_url base_url w svc w',
        Service_init (Some s) service_id scpd_url control_url event_sub_url base_url w
        = (inr svc, w') ->
        Service.type_ svc = nth 3 (split ":" s) EmptyString
        /\ py_int (nth 4 (split ":" s) EmptyString) = inr (Service.version svc))
  /\ _get_service_type (Some "urn:schemas-upnp-org:service:WANIPConnection:1")
      = inr "WANIPConnection"
  /\ (py_int "1" = inr 1%Z ->
      _get_service_version (Some "urn:schemas-upnp-org:service:WANIPConnection:1")
      = inr 1%Z).
Proof.
  intros Hlen.
  assert (Ht : index (split ":" s) 3 = inr (nth 3 (split ":" s) EmptyString))
    by (apply index_lookup; lia).
  assert (Hv : index (split ":" s) 4 = inr (nth 4 (split ":" s) EmptyString))
    by (apply index_lookup; lia).
  split; [exact Ht|]. split; [simpl; rewrite Hv; reflexivity|].
  split; [|split; [reflexivity | intros H1; exact H1]].
  intros service_id scpd_url control_url event_sub_url base_url w svc w' H.
  unfold Service_init in H.
  apply bind_returns in H as (t & w1 & H1 & H).
  apply bind_returns in H as (v & w2 & H2 & H).
  unfold lift in H1, H2. simpl in H1, H2. rewrite Ht in H1. rewrite Hv in H2.
  simpl in H2. inversion H1; subst. inversion H2; subst. clear H1 H2.
  unfold construct in H.
  match type of H with
  | context [bind ?c ?k (?self, ?w)] =>
      destruct (bind c k (self, w)) as [[e|a] [svc' w'']] eqn:E;
      [discriminate|]
  end.
  inversion H; subst.
  assert (Hp : preserves same_type (Service_get_description ;; _get_actions)).
  { apply (preserves_bind same_type same_type_trans).
    - apply Service_get_description_same_type.
    - intros _. apply _get_actions_same_type. }
  apply Hp in E. destruct E as [E1 E2]. simpl in E1, E2.
  split; congruence.
Qed.

(** *** Actions and their arguments *)

Lemma Action_classify_bad (arguments args_in args_out : list Argument.t) :
  Exists bad_direction arguments ->
  exists msg, Action_classify arguments args_in args_out = inl (ValueError msg).
Proof.
  intros H. revert args_in args_out.
  induction H as [a rest [Hin Hout] | a rest _ IH]; intros args_in args_out; simpl.
  - destruct (decide (Argument.direction a = Some "in")); [contradiction|].
    destruct (decide (Argument.direction a = Some "out")); [contradiction|].
    eauto.
  - destruct (decide (Argument.direction a = Some "in")); [apply IH|].
    destruct (decide (Argument.direction a = Some "out")); [apply IH|].
    eauto.
Qed.

Lemma actions_of_raises (pre post : list node) (a : node) (e : exn)
    (all_actions : gmap pystr Action.t) :
  Forall (fun x => exists r, action_of x = inr r) pre ->
  action_of a = inl e ->
  actions_of (pre ++ a :: post) all_actions = inl e.
Proof.
  intros Hpre Ha. revert all_actions.
  induction Hpre as [| x pre [r Hx] _ IH]; intros all_actions; simpl.
  - rewrite Ha. reflexivity.
  - rewrite Hx. simpl. apply IH.
Qed.

(** What [_get_actions] does on a service whose description parses. *)
Lemma _get_actions_run (self : Service.t) (w : world) (text : string)
    (root : document) :
  Service.description self = Some text ->
  parseString text = inr root ->
  _get_actions (self, w)
  = match actions_of (getElementsByTagName root "action") ∅ with
    | inl e => (inl e, (self, record_event EvParse w))
    | inr m => (inr m, (Service.set_actions (ActionMap m) self, record_event EvParse w))
    end.
Proof.
  intros Hd Hp. unfold _get_actions, _service_description_required, parse, emit.
  run. rewrite Hd. simpl. rewrite Hd. simpl. rewrite Hp.
  destruct (actions_of (getElementsByTagName root "action") ∅); reflexivity.
Qed.

(** C2: when the arguments read for an action contain one whose direction
    is neither ["in"] nor ["out"], [Action] raises [ValueError], and so does
    [_get_actions], which leaves the service, hence its action map, as it
    was: nothing is registered and no argument is dropped. *)
Theorem invalid_direction_is_an_error (self : Service.t) (w : world)
    (text : string) (root : document) (pre post : list node) (a : node)
    (name : pystr) (args : list Argument.t) :
  Service.description self = Some text ->
  parseString text = inr root ->
  getElementsByTagName root "action" = pre ++ a :: post ->
  Forall (fun x => exists r, action_of x = inr r) pre ->
  action_fields a = inr (name, args) ->
  Exists bad_direction args ->
  exists msg,
    Action_init name args = inl (ValueError msg)
    /\ _get_actions (self, w) = (inl (ValueError msg), (self, record_event EvParse w)).
Proof.
  intros Hd Hp Hel Hpre Hf Hbad.
  destruct (Action_classify_bad args [] [] Hbad) as [msg Hmsg].
  exists msg.
  assert (Hinit : Action_init name args = inl (ValueError msg))
    by (unfold Action_init; rewrite Hmsg; reflexivity).
  split; [exact Hinit|].
  rewrite (_get_actions_run self w text root Hd Hp), Hel.
  rewrite (actions_of_raises pre post a (ValueError msg)); auto.
  unfold action_of. rewrite Hf. simpl. rewrite Hinit. reflexivity.
Qed.

(** C6: an [<action>] with a name and no [<argumentList>] is built without
    error, with no arguments, no input arguments and no output arguments,
    and is stored under its name. *)
Theorem action_without_argument_list (action : node) (name : pystr)
    (all_actions : gmap pystr Action.t) :
  getElementsByTagName (childNodes action) "argumentList" = [] ->
  first_node_value (getElementsByTagName (childNodes action) "name") = inr name ->
  let built := {| Action.name := name; Action.arguments := [];
                  Action.args_in := []; Action.args_out := [] |} in
  action_of action = inr (name, built)
  /\ actions_of [action] all_actions = inr (<[ name := built ]> all_actions).
Proof.
  intros Hlist Hname built.
  assert (H : action_of action = inr (name, built)).
  { unfold action_of, action_fields. rewrite Hname, Hlist. reflexivity. }
  split; [exact H|]. simpl. rewrite H. reflexivity.
Qed.

(** C3 (the code departs from it): an [<argument>] with an empty
    [<retval/>] raises [AttributeError], which the handler for a missing
    [<retval>] does not catch, so the action list of the service is not
    built; a [<retval>] with text gives that text, and an argument with no
    [<retval>] gives [None]. *)
Theorem empty_retval_raises :
  argument_of (Demo.argument_element "NewUptime" "out" [Element "retval" []])
  = inl AttributeError
  /\ actions_of
       [Element "action"
          [Demo.text "name" "GetStatusInfo";
           Element "argumentList"
             [Demo.argument_element "NewUptime" "out" [Element "retval" []]]]] ∅
     = inl AttributeError
  /\ argument_of (Demo.argument_element "NewUptime" "out" [Demo.text "retval" "1"])
     = inr {| Argument.name := Some "NewUptime"; Argument.direction := Some "out";
              Argument.return_value := Some "1";
              Argument.related_state_variable := Some "Var" |}
  /\ argument_of (Demo.argument_element "NewUptime" "out" [])
     = inr {| Argument.name := Some "NewUptime"; Argument.direction := Some "out";
              Argument.return_value := None;
              Argument.related_state_variable := Some "Var" |}.
Proof. repeat split; reflexivity. Qed.

(** Whatever the element holds besides, an empty first [<retval>] makes
    the argument fail once its name and direction are read. *)
Lemma argument_of_empty_retval (argument retval : node) (rest : list node)
    (name direction : pystr) :
  first_node_value (getElementsByTagName (childNodes argument) "name") = inr name ->
  first_node_value (getElementsByTagName (childNodes argument) "direction")
  = inr direction ->
  getElementsByTagName (childNodes argument) "retval" = retval :: rest ->
  firstChild retval = None ->
  argument_of argument = inl AttributeError.
Proof.
  intros Hn Hd Hr Hc. unfold argument_of. rewrite Hn, Hd, Hr. simpl.
  unfold first_node_value. simpl. rewrite Hc. reflexivity.
Qed.

(** *** Invocation *)

(** C9 (as the code has it): a name that is not a key of the action map of
    a service, and that is not an attribute the service has already, fails
    at the attribute access with the [KeyError] of [__getattr__]; the call
    raises it and leaves the world as it was, so nothing is sent. *)
Theorem unknown_action_raises (self : Service.t) (m : gmap pystr Action.t)
    (action_name : string) (kwargs : list (string * pyvalue)) (w : world) :
  Service.actions self = ActionMap m ->
  m !! Some action_name = None ->
  Service_attribute action_name = false ->
  Service_getattribute self action_name = inl (KeyError action_name)
  /\ Service_call self action_name kwargs w = (inl (KeyError action_name), w).
Proof.
  intros Ha Hm Hattr.
  assert (H : Service_getattr self action_name = inl (KeyError action_name))
    by (unfold Service_getattr; rewrite Ha, Hm; reflexivity).
  split.
  - unfold Service_getattribute. rewrite Hattr, H. reflexivity.
  - unfold Service_call. run. rewrite H. reflexivity.
Qed.

(** *** The base URL *)


(** *** The services of a device *)

Lemma services_of_app (base_url : pystr) (l1 l2 : list node)
    (device_services : gmap string Service.t) (w : world) :
  services_of base_url (l1 ++ l2) device_services w
  = bind (services_of base_url l1 device_services) (services_of base_url l2) w.
Proof.
  revert device_services w.
  induction l1 as [| x l1 IH]; intros device_services w; simpl.
  - reflexivity.
  - unfold bind.
    destruct (service_entry base_url x device_services w) as [[e|d] w1]; simpl;
      [reflexivity|].
    rewrite IH. reflexivity.
Qed.

(** An entry of the dictionary is never replaced by [service_entry]. *)
Lemma service_entry_keeps (base_url : pystr) (service : node)
    (device_services m : gmap string Service.t) (w w' : world)
    (key : string) (kept : Service.t) :
  service_entry base_url service device_services w = (inr m, w') ->
  device_services !! key = Some kept ->
  m !! key = Some kept.
Proof.
  intros H Hk. unfold service_entry in H.
  apply bind_returns in H as (fields & w1 & _ & H).
  apply bind_returns in H as (k & w2 & _ & H).
  destruct (device_services !! k) eqn:Ek.
  - inversion H; subst. exact Hk.
  - apply bind_returns in H as (svc & w3 & _ & H).
    inversion H; subst.
    rewrite lookup_insert_ne; [exact Hk|].
    intros ->. rewrite Ek in Hk. discriminate.
Qed.

Lemma services_of_keeps (base_url : pystr) (elements : list node)
    (device_services m : gmap string Service.t) (w w' : world)
    (key : string) (kept : Service.t) :
  services_of base_url elements device_services w = (inr m, w') ->
  device_services !! key = Some kept ->
  m !! key = Some kept.
Proof.
  revert device_services w.
  induction elements as [| x rest IH]; intros device_services w H Hk; simpl in H.
  - inversion H; subst. exact Hk.
  - apply bind_returns in H as (d & w1 & H1 & H).
    eapply IH; [exact H|].
    eapply service_entry_keeps; eauto.
Qed.

(** [service_entry] on a key that is not in the dictionary yet: the service
    is constructed and stored. *)
Lemma service_entry_new (base_url : pystr) (service : node)
    (device_services : gmap string Service.t) (w : world)
    (fields : service_fields_t) (key : string) :
  service_fields service = inr fields ->
  parse_service_id (f_service_id fields) = inr key ->
  device_services !! key = None ->
  service_entry base_url service device_services w
  = match Service_init (f_service_string fields) (f_service_id fields)
            (f_scpd_url fields) (f_control_url fields) (f_event_sub_url fields)
            base_url w with
    | (inl e, w') => (inl e, w')
    | (inr new_service, w') => (inr (<[ key := new_service ]> device_services), w')
    end.
Proof.
  intros Hf Hk Hn. unfold service_entry. run. rewrite Hf. simpl. rewrite Hk, Hn.
  reflexivity.
Qed.

(** A loop that completes over at least one [<service>] leaves a dictionary
    that is not empty. *)
Lemma services_of_nonempty (base_url : pystr) (service : node) (rest : list node)
    (m : gmap string Service.t) (w w' : world) :
  services_of base_url (service :: rest) ∅ w = (inr m, w') -> m <> ∅.
Proof.
  intros H. simpl in H.
  apply bind_returns in H as (d & w1 & H1 & H).
  assert (Hd : exists key svc, d !! key = Some svc).
  { unfold service_entry in H1.
    apply bind_returns in H1 as (fields & w2 & _ & H1).
    apply bind_returns in H1 as (k & w3 & _ & H1).
    rewrite lookup_empty in H1.
    apply bind_returns in H1 as (svc & w4 & _ & H1).
    inversion H1; subst. exists k, svc. apply lookup_insert_eq. }
  destruct Hd as (key & svc & Hd).
  intros ->.
  pose proof (services_of_keeps _ _ _ _ _ _ _ _ H Hd) as Hm.
  rewrite lookup_empty in Hm. discriminate.
Qed.

(** What [_get_services] does on a device that has a description, a base
    URL and no services yet. *)
Lemma _get_services_run (self : SSDPDevice.t) (w : world) (text base : string)
    (root : document) :
  SSDPDevice.description self = Some text ->
  SSDPDevice.base_url self = Some base ->
  SSDPDevice.services self = ∅ ->
  parseString text = inr root ->
  _get_services (self, w)
  = match services_of (Some base) (getElementsByTagName root "service") ∅
            (record_event EvParse w) with
    | (inl e, w') => (inl e, (self, w'))
    | (inr m, w') => (inr m, (SSDPDevice.set_services m self, w'))
    end.
Proof.
  intros Hd Hb Hs Hp.
  unfold _get_services, _device_description_required, _base_url_required,
    parse, emit.
  run. rewrite Hd. simpl. rewrite Hb. simpl. rewrite Hs.
  destruct (decide (∅ = ∅)) as [_|Hne]; [|contradiction].
  simpl. rewrite Hd, Hp. simpl. rewrite Hb.
  destruct (services_of (Some base) (getElementsByTagName root "service") ∅
              (record_event EvParse w)) as [[e|m] w']; reflexivity.
Qed.

(** On a device whose services are already there, [_get_services] returns
    them and touches nothing. *)
Lemma _get_services_cached (self : SSDPDevice.t) (w : world) (text base : string) :
  SSDPDevice.description self = Some text ->
  SSDPDevice.base_url self = Some base ->
  SSDPDevice.services self <> ∅ ->
  _get_services (self, w) = (inr (SSDPDevice.services self), (self, w)).
Proof.
  intros Hd Hb Hs.
  unfold _get_services, _device_description_required, _base_url_required.
  run. rewrite Hd. simpl. rewrite Hb. simpl.
  destruct (decide (SSDPDevice.services self = ∅)); [contradiction|].
  reflexivity.
Qed.

(** [Service] raises what the request for the SCPD document raises. *)
Lemma Service_init_fetch_fails (service service_id control_url event_sub_url : pystr)
    (base path type_ : string) (version : Z) (w : world) (e : exn) (n : Net) :
  _get_service_type service = inr type_ ->
  _get_service_version service = inr version ->
  make_http_request (Some (base +:+ path)) (net w) = (inl e, n) ->
  Service_init service service_id (Some path) control_url event_sub_url (Some base) w
  = (inl e, {| net := n; log := log w ++ [EvHttp (Some (base +:+ path))] |}).
Proof.
  intros Ht Hv Hr.
  unfold Service_init, Service_get_description, http_read, emit.
  run. rewrite Ht, Hv. simpl. rewrite Hr. reflexivity.
Qed.

(** [SSDPDevice.__init__] is its head followed by [_get_services]. *)
Lemma SSDPDevice_init_split (address : string * Z) (response : string) (w : world) :
  SSDPDevice_init address response w
  = construct (SSDPDevice_fresh address response)
      (SSDPDevice_init_head response ;; _get_services) w.
Proof.
  unfold SSDPDevice_init, SSDPDevice_init_head, construct, bind, lift.
  fold (SSDPDevice_fresh address response).
  destruct (parse_http_header response "Location") as [e|location]; [reflexivity|].
  destruct (SSDPDevice_get_description location (SSDPDevice_fresh address response, w))
    as [[e|x1] [d1 w1]]; [reflexivity|].
  destruct (_get_type (d1, w1)) as [[e|x2] [d2 w2]]; [reflexivity|].
  destruct (_get_base_url (d2, w2)) as [[e|x3] [d3 w3]]; reflexivity.
Qed.

(** C4 (as the code has it): when the request for the SCPD document of a
    declared service raises while the services of a device are built, the
    error reaches the caller of [_get_services] and the build stops there:
    the device is left as it was, without the services built before and
    without the services declared after; and when this happens in
    [SSDPDevice.__init__], the constructor raises that error. *)
Theorem scpd_failure_aborts_services (self : SSDPDevice.t) (w w1 : world)
    (text base path key type_ : string) (version : Z) (root : document)
    (pre post : list node) (service : node) (built : gmap string Service.t)
    (fields : service_fields_t) (e : exn) (n : Net) :
  SSDPDevice.description self = Some text ->
  SSDPDevice.base_url self = Some base ->
  SSDPDevice.services self = ∅ ->
  parseString text = inr root ->
  getElementsByTagName root "service" = pre ++ service :: post ->
  services_of (Some base) pre ∅ (record_event EvParse w) = (inr built, w1) ->
  service_fields service = inr fields ->
  parse_service_id (f_service_id fields) = inr key ->
  built !! key = None ->
  _get_service_type (f_service_string fields) = inr type_ ->
  _get_service_version (f_service_string fields) = inr version ->
  f_scpd_url fields = Some path ->
  make_http_request (Some (base +:+ path)) (net w1) = (inl e, n) ->
  let w2 := {| net := n; log := log w1 ++ [EvHttp (Some (base +:+ path))] |} in
  _get_services (self, w) = (inl e, (self, w2))
  /\ (forall address response w0 x,
        SSDPDevice_init_head response (SSDPDevice_fresh address response, w0)
        = (inr x, (self, w)) ->
        SSDPDevice_init address response w0 = (inl e, w2)).
Proof.
  intros Hd Hb Hs Hp Hel Hpre Hf Hk Hn Ht Hv Hpath Hr w2.
  assert (Hget : _get_services (self, w) = (inl e, (self, w2))).
  { rewrite (_get_services_run self w text base root Hd Hb Hs Hp), Hel.
    rewrite services_of_app. unfold bind at 1. rewrite Hpre.
    simpl. unfold bind at 1.
    rewrite (service_entry_new (Some base) service built w1 fields key Hf Hk Hn).
    rewrite Hpath.
    rewrite (Service_init_fetch_fails _ _ _ _ base path type_ version w1 e n Ht Hv Hr).
    reflexivity. }
  split; [exact Hget|].
  intros address response w0 x Hhead.
  rewrite SSDPDevice_init_split. unfold construct, bind.
  rewrite Hhead, Hget. reflexivity.
Qed.

(** A key that no [<service>] of the loop has is not in the dictionary
    when the loop completes, unless it was there before. *)
Lemma services_of_absent (base_url : pystr) (elements : list node)
    (device_services m : gmap string Service.t) (w w' : world) (key : string) :
  services_of base_url elements device_services w = (inr m, w') ->
  device_services !! key = None ->
  Forall (fun element => forall f, service_fields element = inr f ->
                                   parse_service_id (f_service_id f) <> inr key)
    elements ->
  m !! key = None.
Proof.
  revert device_services w.
  induction elements as [| x rest IH]; intros device_services w H Hk Hno; simpl in H.
  - inversion H; subst. exact Hk.
  - apply bind_returns in H as (d & w1 & Hx & H).
    inversion Hno as [| ? ? Hx_no Hrest]; subst.
    apply (IH _ _ H); [|exact Hrest].
    unfold service_entry in Hx.
    apply bind_returns in Hx as (fields & wa & Hf & Hx).
    apply bind_returns in Hx as (k & wb & Hparse & Hx).
    unfold lift in Hf, Hparse. inversion Hf; subst. inversion Hparse; subst.
    destruct (device_services !! k) eqn:Ek.
    + inversion Hx; subst. exact Hk.
    + apply bind_returns in Hx as (svc & wc & _ & Hx). inversion Hx; subst.
      rewrite lookup_insert_ne; [exact Hk|].
      intros ->. eapply Hx_no; eauto.
Qed.

(** C8: when [_get_services] builds the services of a device, the entry
    found under a key is the [Service] constructed from the first
    [<service>] element, in document order, that has this key; every later
    element with the key is skipped, without error, without constructing a
    [Service] and without any request. *)
Theorem first_service_occurrence_is_kept (self : SSDPDevice.t) (w : world)
    (text base key : string) (root : document) (before after : list node)
    (first : node) (fields : service_fields_t) (m : gmap string Service.t)
    (s' : SSDPDevice.t * world) :
  SSDPDevice.description self = Some text ->
  SSDPDevice.base_url self = Some base ->
  SSDPDevice.services self = ∅ ->
  parseString text = inr root ->
  getElementsByTagName root "service" = before ++ first :: after ->
  service_fields first = inr fields ->
  parse_service_id (f_service_id fields) = inr key ->
  Forall (fun element => forall f, service_fields element = inr f ->
                                   parse_service_id (f_service_id f) <> inr key)
    before ->
  _get_services (self, w) = (inr m, s') ->
  (exists svc w1 w2,
      Service_init (f_service_string fields) (f_service_id fields)
        (f_scpd_url fields) (f_control_url fields) (f_event_sub_url fields)
        (Some base) w1 = (inr svc, w2)
      /\ m !! key = Some svc
      /\ SSDPDevice.services s'.1 !! key = Some svc)
  /\ (forall duplicate fields' device_services w0,
        service_fields duplicate = inr fields' ->
        parse_service_id (f_service_id fields') = inr key ->
        is_Some (device_services !! key) ->
        service_entry (Some base) duplicate device_services w0
        = (inr device_services, w0)).
Proof.
  intros Hd Hb Hs Hp Hel Hf Hk Hbefore H. split.
  - rewrite (_get_services_run self w text base root Hd Hb Hs Hp), Hel in H.
    destruct (services_of (Some base) (before ++ first :: after) ∅
                (record_event EvParse w)) as [[e|m'] w'] eqn:Hloop; [discriminate|].
    inversion H; subst m' s'. clear H.
    rewrite services_of_app in Hloop.
    apply bind_returns in Hloop as (d1 & w1 & Hpre & Hloop).
    simpl in Hloop.
    apply bind_returns in Hloop as (d2 & w2 & Hfirst & Hrest).
    assert (Hnone : d1 !! key = None)
      by (eapply services_of_absent; [exact Hpre | apply lookup_empty | exact Hbefore]).
    rewrite (service_entry_new (Some base) first d1 w1 fields key Hf Hk Hnone)
      in Hfirst.
    destruct (Service_init (f_service_string fields) (f_service_id fields)
                (f_scpd_url fields) (f_control_url fields) (f_event_sub_url fields)
                (Some base) w1) as [[e|svc] w2'] eqn:Hinit; [discriminate|].
    inversion Hfirst; subst d2 w2'. clear Hfirst.
    assert (Hm : m !! key = Some svc)
      by (eapply services_of_keeps; [exact Hrest | apply lookup_insert_eq]).
    exists svc, w1, w2. split; [exact Hinit|]. split; [exact Hm | exact Hm].
  - intros duplicate fields' device_services w0 Hf' Hk' [old Hold].
    unfold service_entry. run. rewrite Hf'. simpl. rewrite Hk', Hold. reflexivity.
Qed.

(** The two ways [_get_services] returns. *)
Lemma _get_services_returns (self : SSDPDevice.t) (w : world)
    (m : gmap string Service.t) (s' : SSDPDevice.t * world) :
  _get_services (self, w) = (inr m, s') ->
  exists text base,
    SSDPDevice.description self = Some text
    /\ SSDPDevice.base_url self = Some base
    /\ ((SSDPDevice.services self <> ∅
         /\ m = SSDPDevice.services self /\ s' = (self, w))
        \/ (SSDPDevice.services self = ∅
            /\ exists root w',
                parseString text = inr root
                /\ services_of (Some base) (getElementsByTagName root "service") ∅
                     (record_event EvParse w) = (inr m, w')
                /\ s' = (SSDPDevice.set_services m self, w'))).
Proof.
  intros H.
  destruct (SSDPDevice.description self) as [text|] eqn:Hd;
    [| unfold _get_services, _device_description_required in H; run;
       rewrite Hd in H; discriminate ].
  destruct (SSDPDevice.base_url self) as [base|] eqn:Hb;
    [| unfold _get_services, _device_description_required, _base_url_required in H;
       run; rewrite Hd in H; simpl in H; rewrite Hb in H; discriminate ].
  exists text, base. split; [reflexivity|]. split; [reflexivity|].
  destruct (decide (SSDPDevice.services self = ∅)) as [Hs|Hs].
  - right. split; [exact Hs|].
    destruct (parseString text) as [e|root] eqn:Hp.
    + unfold _get_services, _device_description_required, _base_url_required,
        parse, emit in H.
      run. rewrite Hd in H. simpl in H. rewrite Hb in H. simpl in H.
      rewrite Hs in H. destruct (decide (∅ = ∅)) as [_|Hne]; [|contradiction].
      simpl in H. rewrite Hd, Hp in H. discriminate.
    + rewrite (_get_services_run self w text base root Hd Hb Hs Hp) in H.
      destruct (services_of (Some base) (getElementsByTagName root "service") ∅
                  (record_event EvParse w)) as [[e|m'] w'] eqn:Hloop;
        [discriminate|].
      inversion H; subst. eauto.
  - left. rewrite (_get_services_cached self w text base Hd Hb Hs) in H.
    inversion H; subst. auto.
Qed.

(** The cache of [_get_services]: once it has returned a dictionary that
    is not empty, every later call returns that dictionary and leaves the
    device and the world as they are: nothing is parsed, requested or
    constructed.  When the dictionary it returned is empty, a later call
    parses the description again, and returns the empty dictionary again. *)
Theorem services_cached_when_nonempty (self : SSDPDevice.t) (w : world)
    (m : gmap string Service.t) (s' : SSDPDevice.t * world) :
  _get_services (self, w) = (inr m, s') ->
  (m <> ∅ ->
   forall calls,
     Nat.iter calls (fun s => (_get_services s).2) s' = s'
     /\ _get_services (Nat.iter calls (fun s => (_get_services s).2) s') = (inr m, s'))
  /\ (m = ∅ ->
      _get_services s' = (inr ∅, (s'.1, record_event EvParse s'.2))).
Proof.
  intros H.
  destruct (_get_services_returns self w m s' H)
    as (text & base & Hd & Hb & [(Hs & -> & ->) | (Hs & root & w' & Hp & Hloop & ->)]).
  - split; [| intros Hm; contradiction].
    intros _ calls.
    assert (Hc := _get_services_cached self w text base Hd Hb Hs).
    induction calls as [| k [IH1 IH2]]; simpl.
    + split; [reflexivity | exact Hc].
    + rewrite IH1, Hc. simpl. split; [reflexivity | exact Hc].
  - split.
    + intros Hm calls.
      assert (Hc : _get_services (SSDPDevice.set_services m self, w')
                   = (inr m, (SSDPDevice.set_services m self, w')))
        by (apply (_get_services_cached (SSDPDevice.set_services m self) w' text base
                     Hd Hb); simpl; exact Hm).
      induction calls as [| k [IH1 IH2]]; simpl.
      * split; [reflexivity | exact Hc].
      * rewrite IH1, Hc. simpl. split; [reflexivity | exact Hc].
    + intros ->.
      destruct (getElementsByTagName root "service") as [| x rest] eqn:Hel.
      * simpl in Hloop. inversion Hloop; subst.
        rewrite (_get_services_run (SSDPDevice.set_services ∅ self)
                   (record_event EvParse w) text base root); simpl; auto.
        rewrite Hel. reflexivity.
      * apply services_of_nonempty in Hloop. contradiction.
Qed.

(** *** The port mappings of a gateway *)


Lemma entries_of_GetPortMappings_from (self : Igd.t) (fuel : nat) :
  forall i mappings w result w',
    GetPortMappings_from fuel self i mappings w = Some (result, w') ->
    exists found, entries self i w found w' /\ result = mappings ++ found
                  /\ length found < fuel.
Proof.
  induction fuel as [|fuel IH]; intros i mappings w result w' H; simpl in H;
    [discriminate|].
  destruct (Service_call (Igd.service self) "GetGenericPortMappingEntry"
              [("NewPortMappingIndex", VInt (Z.of_nat i))] w)
    as [[e|mapping] w1] eqn:Hq.
  - inversion H; subst. exists []. rewrite app_nil_r.
    split; [eapply entries_stop; exact Hq | split; [reflexivity | simpl; lia]].
  - apply IH in H as (found & Hen & -> & Hlen).
    exists (mapping :: found). rewrite <- app_assoc.
    split; [eapply entries_next; eauto | split; [reflexivity | simpl; lia]].
Qed.



(** *** The partition of the arguments of an action *)

Lemma Action_classify_good (arguments args_in args_out : list Argument.t) :
  Forall good_direction arguments ->
  Action_classify arguments args_in args_out
  = inr (args_in ++ filter (fun a => Argument.direction a = Some "in") arguments,
         args_out ++ filter (fun a => Argument.direction a = Some "out") arguments).
Proof.
  intros H. revert args_in args_out.
  induction H as [| a rest Ha _ IH]; intros args_in args_out; simpl.
  - rewrite !app_nil_r. reflexivity.
  - rewrite !filter_cons.
    destruct (decide (Argument.direction a = Some "in")) as [Hin|Hin].
    + rewrite IH. destruct (decide (Argument.direction a = Some "out")) as [Hout|_].
      * rewrite Hin in Hout. discriminate.
      * rewrite <- app_assoc. reflexivity.
    + destruct (decide (Argument.direction a = Some "out")) as [Hout|Hout].
      * rewrite IH. rewrite <- app_assoc. reflexivity.
      * destruct Ha; contradiction.
Qed.

Lemma Action_classify_returns (arguments args_in args_out : list Argument.t)
    (io : list Argument.t * list Argument.t) :
  Action_classify arguments args_in args_out = inr io ->
  Forall good_direction arguments.
Proof.
  revert args_in args_out.
  induction arguments as [| a rest IH]; intros args_in args_out H; simpl in H.
  - constructor.
  - destruct (decide (Argument.direction a = Some "in")) as [Hin|Hin].
    + constructor; [left; exact Hin | eapply IH; exact H].
    + destruct (decide (Argument.direction a = Some "out")) as [Hout|Hout];
        [|discriminate].
      constructor; [right; exact Hout | eapply IH; exact H].
Qed.

(** X1: [Action] is built exactly when every argument has the direction
    ["in"] or ["out"]; it then keeps the argument list as given, and
    [args_in] and [args_out] are the arguments of each direction, in the
    order of the list. *)
Theorem Action_init_partition (name : pystr) (argument_list : list Argument.t)
    (a : Action.t) :
  Action_init name argument_list = inr a
  <-> Forall good_direction argument_list
      /\ a = {| Action.name := name;
                Action.arguments := argument_list;
                Action.args_in :=
                  filter (fun x => Argument.direction x = Some "in") argument_list;
                Action.args_out :=
                  filter (fun x => Argument.direction x = Some "out") argument_list |}.
Proof.
  unfold Action_init. split.
  - intros H.
    destruct (Action_classify argument_list [] []) as [e|io] eqn:E; [discriminate|].
    pose proof (Action_classify_returns _ _ _ _ E) as Hgood.
    rewrite (Action_classify_good _ [] [] Hgood) in E.
    inversion E; subst. simpl in H. inversion H; subst. auto.
  - intros [Hgood ->]. rewrite (Action_classify_good _ [] [] Hgood). reflexivity.
Qed.

(** X2: the [ValueError] of [Action] names the first argument, in the order
    of the list, whose direction is neither ["in"] nor ["out"]. *)
Theorem Action_init_first_bad_argument (name : pystr)
    (before after : list Argument.t) (bad : Argument.t) :
  Forall good_direction before ->
  bad_direction bad ->
  Action_init name (before ++ bad :: after)
  = inl (ValueError (direction_message bad)).
Proof.
  intros Hgood [Hin Hout]. unfold Action_init.
  assert (H : forall args_in args_out,
             Action_classify (before ++ bad :: after) args_in args_out
             = inl (ValueError (direction_message bad))).
  { induction Hgood as [| a rest Ha _ IH]; intros args_in args_out; simpl.
    - destruct (decide (Argument.direction bad = Some "in")); [contradiction|].
      destruct (decide (Argument.direction bad = Some "out")); [contradiction|].
      reflexivity.
    - destruct (decide (Argument.direction a = Some "in")); [apply IH|].
      destruct (decide (Argument.direction a = Some "out")); [apply IH|].
      destruct Ha; contradiction. }
  rewrite H. reflexivity.
Qed.

(** X3: the arguments read from a list of [<argument>] elements are the
    arguments of the elements one by one, in document order; the list is
    read exactly when every element can be read. *)
Theorem arguments_of_in_order (elements : list node)
    (action_arguments result : list Argument.t) :
  arguments_of elements action_arguments = inr result
  <-> exists read,
        Forall2 (fun element a => argument_of element = inr a) elements read
        /\ result = action_arguments ++ read.
Proof.
  revert action_arguments.
  induction elements as [| x rest IH]; intros action_arguments; simpl.
  - split.
    + intros H. inversion H; subst. exists []. rewrite app_nil_r. auto.
    + intros (read & Hr & ->). inversion Hr; subst. rewrite app_nil_r. reflexivity.
  - unfold rbind. destruct (argument_of x) as [e|a] eqn:Ex.
    + split; [discriminate|].
      intros (read & Hr & _). inversion Hr; subst. congruence.
    + rewrite IH. split.
      * intros (read & Hr & ->). exists (a :: read).
        rewrite <- app_assoc. auto.
      * intros (read & Hr & ->). inversion Hr as [| ? a' ? read' Ha Hrest]; subst.
        assert (a' = a) by congruence. subst a'.
        exists read'. rewrite <- app_assoc. auto.
Qed.

(** *** The action map of a service *)

Lemma actions_of_app (l1 l2 : list node) (all_actions : gmap pystr Action.t) :
  actions_of (l1 ++ l2) all_actions
  = (m <-r actions_of l1 all_actions; actions_of l2 m).
Proof.
  revert all_actions. induction l1 as [| x l1 IH]; intros all_actions; simpl.
  - reflexivity.
  - unfold rbind at 1 3. destruct (action_of x) as [e|ka]; [reflexivity|].
    apply IH.
Qed.

(** An entry survives the rest of the loop when no later action has its
    name. *)
Lemma actions_of_keeps (elements : list node) (all_actions m : gmap pystr Action.t)
    (key : pystr) (kept : Action.t) :
  actions_of elements all_actions = inr m ->
  Forall (fun element => forall ka, action_of element = inr ka -> ka.1 <> key)
    elements ->
  all_actions !! key = Some kept ->
  m !! key = Some kept.
Proof.
  revert all_actions.
  induction elements as [| x rest IH]; intros all_actions H Hno Hk; simpl in H.
  - inversion H; subst. exact Hk.
  - unfold rbind in H. destruct (action_of x) as [e|ka] eqn:Ex; [discriminate|].
    inversion Hno as [| ? ? Hx Hrest]; subst.
    eapply IH; [exact H | exact Hrest |].
    rewrite lookup_insert_ne; [exact Hk|].
    apply (Hx ka Ex).
Qed.

(** X4: when several [<action>] elements have the same name, the action map
    holds the [Action] built from the last of them. *)
Theorem last_action_occurrence_is_kept (before after : list node) (action : node)
    (all_actions m : gmap pystr Action.t) (key : pystr) (built : Action.t) :
  actions_of (before ++ action :: after) all_actions = inr m ->
  action_of action = inr (key, built) ->
  Forall (fun element => forall ka, action_of element = inr ka -> ka.1 <> key)
    after ->
  m !! key = Some built.
Proof.
  intros H Ha Hafter.
  rewrite actions_of_app in H. unfold rbind in H.
  destruct (actions_of before all_actions) as [e|m1]; [discriminate|].
  simpl in H. rewrite Ha in H. simpl in H.
  eapply actions_of_keeps; [exact H | exact Hafter |].
  apply lookup_insert_eq.
Qed.

(** X5: when the loop of [_get_actions] completes, the keys of the action
    map are the keys it started with and the names of the [<action>]
    elements, no more and no less. *)
Theorem actions_of_keys (elements : list node) (all_actions m : gmap pystr Action.t)
    (key : pystr) :
  actions_of elements all_actions = inr m ->
  is_Some (m !! key)
  <-> is_Some (all_actions !! key)
      \/ exists element built,
           element ∈ elements /\ action_of element = inr (key, built).
Proof.
  revert all_actions.
  induction elements as [| x rest IH]; intros all_actions H; simpl in H.
  - inversion H; subst. split; [auto|].
    intros [Hk | (element & built & Hin & _)]; [exact Hk|].
    apply elem_of_nil in Hin. contradiction.
  - unfold rbind in H. destruct (action_of x) as [e|[k act]] eqn:Ex; [discriminate|].
    simpl in H. rewrite (IH _ H). split.
    + intros [Hk | (element & built & Hin & He)].
      * destruct (decide (k = key)) as [->|Hne].
        -- right. exists x, act. split; [apply elem_of_cons; auto | exact Ex].
        -- left. rewrite lookup_insert_ne in Hk; auto.
      * right. exists element, built. split; [apply elem_of_cons; auto | exact He].
    + intros [Hk | (element & built & Hin & He)].
      * left. destruct (decide (k = key)) as [->|Hne].
        -- rewrite lookup_insert_eq. eauto.
        -- rewrite lookup_insert_ne; auto.
      * apply elem_of_cons in Hin as [->|Hin].
        -- left. rewrite Ex in He. inversion He; subst.
           rewrite lookup_insert_eq. eauto.
        -- right. eauto.
Qed.

(** The way [_get_actions] returns. *)
Lemma _get_actions_returns (self self' : Service.t) (w w' : world)
    (m : gmap pystr Action.t) :
  _get_actions (self, w) = (inr m, (self', w')) ->
  exists text root,
    Service.description self = Some text
    /\ parseString text = inr root
    /\ actions_of (getElementsByTagName root "action") ∅ = inr m
    /\ self' = Service.set_actions (ActionMap m) self
    /\ w' = record_event EvParse w.
Proof.
  intros H.
  destruct (Service.description self) as [text|] eqn:Hd;
    [| unfold _get_actions, _service_description_required in H; run;
       rewrite Hd in H; discriminate ].
  destruct (parseString text) as [e|root] eqn:Hp.
  - unfold _get_actions, _service_description_required, parse, emit in H. run.
    rewrite Hd in H. simpl in H. rewrite Hd in H. simpl in H. rewrite Hp in H.
    discriminate.
  - rewrite (_get_actions_run self w text root Hd Hp) in H.
    destruct (actions_of (getElementsByTagName root "action") ∅) as [e|m'] eqn:Ha;
      [discriminate|].
    inversion H; subst. exists text, root. auto.
Qed.

Lemma action_of_name (element : node) (key : pystr) (built : Action.t) :
  action_of element = inr (key, built) -> Action.name built = key.
Proof.
  unfold action_of, Action_init, rbind. intros H.
  destruct (action_fields element) as [e|[k args]]; [discriminate|].
  simpl in H. destruct (Action_classify args [] []) as [e|io]; [discriminate|].
  inversion H; subst. reflexivity.
Qed.

(** Every entry of the action map is stored under its own name. *)
Lemma actions_of_names (elements : list node) (all_actions m : gmap pystr Action.t) :
  actions_of elements all_actions = inr m ->
  (forall key a, all_actions !! key = Some a -> Action.name a = key) ->
  forall key a, m !! key = Some a -> Action.name a = key.
Proof.
  revert all_actions.
  induction elements as [| x rest IH]; intros all_actions H Hinv; simpl in H.
  - inversion H; subst. exact Hinv.
  - unfold rbind in H. destruct (action_of x) as [e|[k act]] eqn:Ex; [discriminate|].
    simpl in H. apply (IH _ H).
    intros key a Hk. destruct (decide (k = key)) as [->|Hne].
    + rewrite lookup_insert_eq in Hk. inversion Hk; subst.
      eapply action_of_name; exact Ex.
    + rewrite lookup_insert_ne in Hk by exact Hne. eapply Hinv; exact Hk.
Qed.

(** A name in the action map stays in it to the end of the loop. *)
Lemma actions_of_stays (elements : list node) (all_actions m : gmap pystr Action.t)
    (key : pystr) :
  actions_of elements all_actions = inr m ->
  is_Some (all_actions !! key) -> is_Some (m !! key).
Proof.
  revert all_actions.
  induction elements as [| x rest IH]; intros all_actions H Hk; simpl in H.
  - inversion H; subst. exact Hk.
  - unfold rbind in H. destruct (action_of x) as [e|[k act]]; [discriminate|].
    simpl in H. apply (IH _ H).
    destruct (decide (k = key)) as [->|Hne].
    + rewrite lookup_insert_eq. eauto.
    + rewrite lookup_insert_ne by exact Hne. exact Hk.
Qed.

(** The name of every [<action>] element read is in the action map. *)
Lemma actions_of_declared (elements : list node) (all_actions m : gmap pystr Action.t)
    (element : node) (key : pystr) (built : Action.t) :
  actions_of elements all_actions = inr m ->
  element ∈ elements ->
  action_of element = inr (key, built) ->
  is_Some (m !! key).
Proof.
  revert all_actions.
  induction elements as [| x rest IH]; intros all_actions H Hin He; simpl in H.
  - apply elem_of_nil in Hin. contradiction.
  - unfold rbind in H. destruct (action_of x) as [e|[k act]] eqn:Ex; [discriminate|].
    simpl in H. apply elem_of_cons in Hin as [->|Hin].
    + rewrite Ex in He. inversion He; subst.
      apply (actions_of_stays _ _ _ _ H). rewrite lookup_insert_eq. eauto.
    + eapply IH; eauto.
Qed.

(** X6: after [_get_actions] has returned, every [<action>] element of the
    description whose name is not an attribute the service has already
    resolves, by attribute access on the service, to the bound [execute] of
    an action of that name, the one stored under the name in the action
    map. *)
Theorem registered_actions_resolve (self self' : Service.t) (w w' : world)
    (m : gmap pystr Action.t) (text : string) (root : document) (element : node)
    (name : string) (built : Action.t) :
  _get_actions (self, w) = (inr m, (self', w')) ->
  Service.description self = Some text ->
  parseString text = inr root ->
  element ∈ getElementsByTagName root "action" ->
  action_of element = inr (Some name, built) ->
  Service_attribute name = false ->
  exists a,
    Service_getattribute self' name = inr (Execute a)
    /\ Action.name a = Some name
    /\ m !! Some name = Some a.
Proof.
  intros H Hd Hp Hin He Hattr.
  destruct (_get_actions_returns _ _ _ _ _ H)
    as (text' & root' & Hd' & Hp' & Hloop & -> & _).
  rewrite Hd in Hd'. inversion Hd'; subst text'.
  rewrite Hp in Hp'. inversion Hp'; subst root'.
  destruct (actions_of_declared _ _ _ _ _ _ Hloop Hin He) as [a Ha].
  exists a. split; [|split; [|exact Ha]].
  - unfold Service_getattribute, Service_getattr. rewrite Hattr. simpl.
    rewrite Ha. reflexivity.
  - eapply (actions_of_names _ _ _ Hloop); [|exact Ha].
    intros key a0 Hk. rewrite lookup_empty in Hk. discriminate.
Qed.



(** *** The construction of a service *)

(** What [Service._get_description] does. *)
Lemma Service_get_description_run (self : Service.t) (w : world) :
  Service_get_description (self, w)
  = match py_add (Service.base_url self) (Service.scpd_url self) with
    | inl e => (inl e, (self, w))
    | inr url =>
        let w1 := {| net := (make_http_request (Some url) (net w)).2;
                     log := log w ++ [EvHttp (Some url)] |} in
        match (make_http_request (Some url) (net w)).1 with
        | inl e => (inl e, (self, w1))
        | inr body =>
            match decode body with
            | inl e => (inl e, (self, w1))
            | inr text => (inr (Some text), (Service.set_description (Some text) self, w1))
            end
        end
    end.
Proof.
  unfold Service_get_description, http_read, emit. run.
  destruct (py_add (Service.base_url self) (Service.scpd_url self)) as [e|url];
    [reflexivity|].
  simpl. destruct (make_http_request (Some url) (net w)) as [[e|body] n]; simpl;
    [reflexivity|].
  destruct (decode body); reflexivity.
Qed.

(** What [_get_actions] does on a service that has a description. *)
Lemma _get_actions_described (self : Service.t) (w : world) (text : string) :
  Service.description self = Some text ->
  _get_actions (self, w)
  = match parseString text with
    | inl e => (inl e, (self, record_event EvParse w))
    | inr root =>
        match actions_of (getElementsByTagName root "action") ∅ with
        | inl e => (inl e, (self, record_event EvParse w))
        | inr m =>
            (inr m, (Service.set_actions (ActionMap m) self, record_event EvParse w))
        end
    end.
Proof.
  intros Hd. destruct (parseString text) as [e|root] eqn:Hp.
  - unfold _get_actions, _service_description_required, parse, emit. run.
    rewrite Hd. simpl. rewrite Hd. simpl. rewrite Hp. reflexivity.
  - exact (_get_actions_run self w text root Hd Hp).
Qed.

(** The whole of [Service.__init__], step by step. *)
Lemma Service_init_run (service service_id scpd_url control_url event_sub_url
    base_url : pystr) (w : world) :
  Service_init service service_id scpd_url control_url event_sub_url base_url w
  = match _get_service_type service with
    | inl e => (inl e, w)
    | inr type_ =>
    match _get_service_version service with
    | inl e => (inl e, w)
    | inr version =>
    match py_add base_url scpd_url with
    | inl e => (inl e, w)
    | inr url =>
    let w1 := {| net := (make_http_request (Some url) (net w)).2;
                 log := log w ++ [EvHttp (Some url)] |} in
    match (make_http_request (Some url) (net w)).1 with
    | inl e => (inl e, w1)
    | inr body =>
    match decode body with
    | inl e => (inl e, w1)
    | inr text =>
    match parseString text with
    | inl e => (inl e, record_event EvParse w1)
    | inr root =>
    match actions_of (getElementsByTagName root "action") ∅ with
    | inl e => (inl e, record_event EvParse w1)
    | inr m =>
        (inr {| Service.service := service;
                Service.type_ := type_;
                Service.version := version;
                Service.id := service_id;
                Service.scpd_url := scpd_url;
                Service.control_url := control_url;
                Service.event_sub_url := event_sub_url;
                Service.base_url := base_url;
                Service.actions := ActionMap m;
                Service.description := Some text |},
         record_event EvParse w1)
    end end end end end end end.
Proof.
  unfold Service_init.
  unfold bind at 1, lift at 1.
  destruct (_get_service_type service) as [e|type_]; [reflexivity|].
  unfold bind at 1, lift at 1.
  destruct (_get_service_version service) as [e|version]; [reflexivity|].
  unfold construct, bind.
  rewrite Service_get_description_run. simpl.
  destruct (py_add base_url scpd_url) as [e|url]; [reflexivity|].
  simpl. destruct (make_http_request (Some url) (net w)) as [[e|body] n]; simpl;
    [reflexivity|].
  destruct (decode body) as [e|text]; [reflexivity|].
  erewrite (_get_actions_described _ _ text) by reflexivity.
  destruct (parseString text) as [e|root]; [reflexivity|].
  destruct (actions_of (getElementsByTagName root "action") ∅); reflexivity.
Qed.

(** X8: a service type string with fewer than five colon-delimited
    segments makes [Service] raise [IndexError] before anything is
    requested: the world is as it was. *)
Theorem Service_init_short_type_string (s : string) (service_id scpd_url
    control_url event_sub_url base_url : pystr) (w : world) :
  length (split ":" s) < 5 ->
  Service_init (Some s) service_id scpd_url control_url event_sub_url base_url w
  = (inl IndexError, w).
Proof.
  intros Hlen. rewrite Service_init_run. simpl. unfold index, rbind.
  destruct (split ":" s !! 3) as [t|] eqn:E3; [|reflexivity].
  destruct (split ":" s !! 4) as [v|] eqn:E4; [|reflexivity].
  apply lookup_lt_Some in E4. lia.
Qed.

(** What a service that [Service] returned looks like. *)
Lemma Service_init_built (service service_id scpd_url control_url event_sub_url
    base_url : pystr) (w w' : world) (svc : Service.t) :
  Service_init service service_id scpd_url control_url event_sub_url base_url w
  = (inr svc, w') ->
  Service.id svc = service_id
  /\ Service.base_url svc = base_url
  /\ is_Some (Service.description svc)
  /\ exists actions, Service.actions svc = ActionMap actions.
Proof.
  rewrite Service_init_run. intros H.
  destruct (_get_service_type service) as [e|type_]; [discriminate|].
  destruct (_get_service_version service) as [e|version]; [discriminate|].
  destruct (py_add base_url scpd_url) as [e|url]; [discriminate|].
  simpl in H.
  destruct (make_http_request (Some url) (net w)) as [[e|body] n];
    simpl in H; [discriminate|].
  destruct (decode body) as [e|text]; [discriminate|].
  destruct (parseString text) as [e|root]; [discriminate|].
  destruct (actions_of (getElementsByTagName root "action") ∅) as [e|m];
    [discriminate|].
  inversion H; subst. simpl. eauto.
Qed.

(** X9: [Service] returns exactly when the type string gives a type name
    and a version, the base URL and the SCPD URL are strings, the request
    for their concatenation succeeds, its body decodes and parses, and the
    actions can be built.  The service then carries the constructor's
    arguments, the decoded description and the action map, and the world has
    seen that one request and one parse, in this order. *)
Theorem Service_init_returns (service service_id scpd_url control_url
    event_sub_url base_url : pystr) (w w' : world) (svc : Service.t) :
  Service_init service service_id scpd_url control_url event_sub_url base_url w
  = (inr svc, w')
  <-> exists type_ version base path body text root m,
        _get_service_type service = inr type_
        /\ _get_service_version service = inr version
        /\ base_url = Some base /\ scpd_url = Some path
        /\ (make_http_request (Some (base +:+ path)) (net w)).1 = inr body
        /\ decode body = inr text
        /\ parseString text = inr root
        /\ actions_of (getElementsByTagName root "action") ∅ = inr m
        /\ svc = {| Service.service := service;
                    Service.type_ := type_;
                    Service.version := version;
                    Service.id := service_id;
                    Service.scpd_url := scpd_url;
                    Service.control_url := control_url;
                    Service.event_sub_url := event_sub_url;
                    Service.base_url := base_url;
                    Service.actions := ActionMap m;
                    Service.description := Some text |}
        /\ w' = {| net := (make_http_request (Some (base +:+ path)) (net w)).2;
                   log := log w ++ [EvHttp (Some (base +:+ path)); EvParse] |}.
Proof.
  rewrite Service_init_run. split.
  - intros H.
    destruct (_get_service_type service) as [e|type_]; [discriminate|].
    destruct (_get_service_version service) as [e|version]; [discriminate|].
    destruct base_url as [base|]; [|discriminate].
    destruct scpd_url as [path|]; [|discriminate].
    simpl in H.
    destruct (make_http_request (Some (base +:+ path)) (net w)) as [[e|body] n]
      eqn:Hreq; simpl in H; [discriminate|].
    destruct (decode body) as [e|text] eqn:Hdec; [discriminate|].
    destruct (parseString text) as [e|root] eqn:Hp; [discriminate|].
    destruct (actions_of (getElementsByTagName root "action") ∅) as [e|m] eqn:Ha;
      [discriminate|].
    inversion H; subst.
    exists type_, version, base, path, body, text, root, m.
    rewrite Hreq. repeat split; auto.
    unfold record_event. simpl. rewrite <- app_assoc. reflexivity.
  - intros (type_ & version & base & path & body & text & root & m
            & Ht & Hv & -> & -> & Hreq & Hdec & Hp & Ha & -> & ->).
    rewrite Ht, Hv. simpl. rewrite Hreq, Hdec, Hp, Ha.
    unfold record_event. simpl. rewrite <- app_assoc. reflexivity.
Qed.

(** X10: a base URL or an SCPD URL that is [None] makes [Service] raise
    [TypeError] at the concatenation, before anything is requested. *)
Theorem Service_init_url_is_None (service service_id scpd_url control_url
    event_sub_url base_url : pystr) (type_ : string) (version : Z) (w : world) :
  _get_service_type service = inr type_ ->
  _get_service_version service = inr version ->
  base_url = None \/ scpd_url = None ->
  Service_init service service_id scpd_url control_url event_sub_url base_url w
  = (inl TypeError, w).
Proof.
  intros Ht Hv Hnone. rewrite Service_init_run, Ht, Hv.
  destruct Hnone as [-> | ->]; [reflexivity|].
  destruct base_url; reflexivity.
Qed.

(** *** The services map, entry by entry *)

(** The two ways [service_entry] returns. *)
Lemma service_entry_returns (base_url : pystr) (service : node)
    (device_services m : gmap string Service.t) (w w' : world) :
  service_entry base_url service device_services w = (inr m, w') ->
  exists fields key,
    service_fields service = inr fields
    /\ parse_service_id (f_service_id fields) = inr key
    /\ ((is_Some (device_services !! key) /\ m = device_services /\ w' = w)
        \/ (device_services !! key = None
            /\ exists new_service,
                Service_init (f_service_string fields) (f_service_id fields)
                  (f_scpd_url fields) (f_control_url fields)
                  (f_event_sub_url fields) base_url w = (inr new_service, w')
                /\ m = <[ key := new_service ]> device_services)).
Proof.
  intros H. unfold service_entry in H.
  apply bind_returns in H as (fields & w1 & H1 & H).
  apply bind_returns in H as (key & w2 & H2 & H).
  unfold lift in H1, H2. inversion H1; subst. inversion H2; subst.
  exists fields, key. split; [assumption|]. split; [assumption|].
  destruct (device_services !! key) as [old|] eqn:Ek.
  - left. inversion H; subst. eauto.
  - right. split; [reflexivity|].
    apply bind_returns in H as (new_service & w3 & Hinit & H).
    inversion H; subst. eauto.
Qed.

Lemma services_of_keys (base_url : pystr) (elements : list node)
    (device_services m : gmap string Service.t) (w w' : world) (key : string) :
  services_of base_url elements device_services w = (inr m, w') ->
  is_Some (m !! key)
  <-> is_Some (device_services !! key)
      \/ exists service fields,
           service ∈ elements
           /\ service_fields service = inr fields
           /\ parse_service_id (f_service_id fields) = inr key.
Proof.
  revert device_services w.
  induction elements as [| x rest IH]; intros device_services w H; simpl in H.
  - inversion H; subst. split; [auto|].
    intros [Hk | (service & fields & Hin & _)]; [exact Hk|].
    apply elem_of_nil in Hin. contradiction.
  - apply bind_returns in H as (d & w1 & Hx & H).
    rewrite (IH _ _ H).
    destruct (service_entry_returns _ _ _ _ _ _ Hx)
      as (fields & k & Hf & Hk & [(Hsome & -> & ->) | (Hnone & svc & _ & ->)]).
    + split.
      * intros [Hd | (service & fs & Hin & Hs)]; [left; exact Hd|].
        right. exists service, fs. split; [apply elem_of_cons; auto | exact Hs].
      * intros [Hd | (service & fs & Hin & Hfs & Hks)]; [left; exact Hd|].
        apply elem_of_cons in Hin as [->|Hin].
        -- left. rewrite Hf in Hfs. inversion Hfs; subst.
           rewrite Hk in Hks. inversion Hks; subst. exact Hsome.
        -- right. eauto.
    + split.
      * intros [Hd | (service & fs & Hin & Hs)].
        -- destruct (decide (k = key)) as [->|Hne].
           ++ right. exists x, fields. split; [apply elem_of_cons; auto | auto].
           ++ left. rewrite lookup_insert_ne in Hd; auto.
        -- right. exists service, fs. split; [apply elem_of_cons; auto | exact Hs].
      * intros [Hd | (service & fs & Hin & Hfs & Hks)].
        -- left. destruct (decide (k = key)) as [->|Hne].
           ++ rewrite lookup_insert_eq. eauto.
           ++ rewrite lookup_insert_ne; auto.
        -- apply elem_of_cons in Hin as [->|Hin].
           ++ left. rewrite Hf in Hfs. inversion Hfs; subst.
              rewrite Hk in Hks. inversion Hks; subst.
              rewrite lookup_insert_eq. eauto.
           ++ right. eauto.
Qed.

(** X11: when [_get_services] builds the services of a device, the keys of
    the dictionary are exactly the parsed identifiers of the [<service>]
    elements of its description. *)
Theorem services_keys_are_the_declared_ids (self : SSDPDevice.t) (w : world)
    (text : string) (root : document) (m : gmap string Service.t)
    (s' : SSDPDevice.t * world) (key : string) :
  SSDPDevice.description self = Some text ->
  parseString text = inr root ->
  SSDPDevice.services self = ∅ ->
  _get_services (self, w) = (inr m, s') ->
  is_Some (m !! key)
  <-> exists service fields,
        service ∈ getElementsByTagName root "service"
        /\ service_fields service = inr fields
        /\ parse_service_id (f_service_id fields) = inr key.
Proof.
  intros Hd Hp Hs H.
  destruct (_get_services_returns self w m s' H)
    as (text' & base & Hd' & Hb & [(Hne & _) | (_ & root' & w' & Hp' & Hloop & _)]);
    [contradiction|].
  rewrite Hd in Hd'. inversion Hd'; subst text'.
  rewrite Hp in Hp'. inversion Hp'; subst root'.
  rewrite (services_of_keys _ _ _ _ _ _ key Hloop).
  rewrite lookup_empty. split; [|auto].
  intros [[x Hx] | Hdecl]; [discriminate | exact Hdecl].
Qed.

Lemma services_of_entries (base_url : pystr) (elements : list node)
    (device_services m : gmap string Service.t) (w w' : world)
    (key : string) (svc : Service.t) :
  services_of base_url elements device_services w = (inr m, w') ->
  m !! key = Some svc ->
  device_services !! key = Some svc
  \/ exists service fields w1 w2,
       service ∈ elements
       /\ service_fields service = inr fields
       /\ parse_service_id (f_service_id fields) = inr key
       /\ Service_init (f_service_string fields) (f_service_id fields)
            (f_scpd_url fields) (f_control_url fields) (f_event_sub_url fields)
            base_url w1 = (inr svc, w2).
Proof.
  revert device_services w.
  induction elements as [| x rest IH]; intros device_services w H Hm; simpl in H.
  - inversion H; subst. left. exact Hm.
  - apply bind_returns in H as (d & w1 & Hx & H).
    destruct (IH _ _ H Hm) as [Hd | (service & fs & wa & wb & Hin & Hrest)].
    + destruct (service_entry_returns _ _ _ _ _ _ Hx)
        as (fields & k & Hf & Hk & [(_ & -> & ->) | (Hnone & new & Hinit & ->)]).
      * left. exact Hd.
      * destruct (decide (k = key)) as [->|Hne].
        -- rewrite lookup_insert_eq in Hd. inversion Hd; subst.
           right. exists x, fields, w, w1.
           split; [apply elem_of_cons; auto | auto].
        -- rewrite lookup_insert_ne in Hd by exact Hne. left. exact Hd.
    + right. exists service, fs, wa, wb.
      split; [apply elem_of_cons; auto | exact Hrest].
Qed.

(** X12: every service [_get_services] puts in the dictionary is stored
    under the parsed identifier of its own [id], carries the base URL of the
    device, and has its description and its action map. *)
Theorem services_are_fully_built (self : SSDPDevice.t) (w : world)
    (m : gmap string Service.t) (s' : SSDPDevice.t * world) (key : string)
    (svc : Service.t) :
  SSDPDevice.services self = ∅ ->
  _get_services (self, w) = (inr m, s') ->
  m !! key = Some svc ->
  parse_service_id (Service.id svc) = inr key
  /\ Service.base_url svc = SSDPDevice.base_url self
  /\ is_Some (Service.description svc)
  /\ exists actions, Service.actions svc = ActionMap actions.
Proof.
  intros Hs H Hm.
  destruct (_get_services_returns self w m s' H)
    as (text & base & Hd & Hb & [(Hne & _) | (_ & root & w' & Hp & Hloop & _)]);
    [contradiction|].
  destruct (services_of_entries _ _ _ _ _ _ _ _ Hloop Hm)
    as [Hempty | (service & fields & w1 & w2 & _ & _ & Hk & Hinit)].
  - rewrite lookup_empty in Hempty. discriminate.
  - destruct (Service_init_built _ _ _ _ _ _ _ _ _ Hinit) as (Hid & Hbase & Hdesc & Hacts).
    rewrite Hid, Hbase, Hb. auto.
Qed.

(** *** The methods of a device *)

(** X13: on a device without a description, [_get_type], [_get_base_url]
    and [_get_services] raise the [ValueError] of the description check and
    touch nothing; for [_get_services] this check comes before the check of
    the base URL. *)
Theorem description_is_required (self : SSDPDevice.t) (w : world) :
  SSDPDevice.description self = None ->
  let e := ValueError "No device description retrieved for this device." in
  _get_type (self, w) = (inl e, (self, w))
  /\ _get_base_url (self, w) = (inl e, (self, w))
  /\ _get_services (self, w) = (inl e, (self, w)).
Proof.
  intros Hd e.
  unfold _get_type, _get_base_url, _get_services, _device_description_required.
  run. rewrite Hd. auto.
Qed.

(** X14: on a device that has a description and no base URL,
    [_get_services] raises the [ValueError] of the base URL check; nothing
    is parsed and nothing is requested. *)
Theorem base_url_is_required (self : SSDPDevice.t) (w : world) (text : string) :
  SSDPDevice.description self = Some text ->
  SSDPDevice.base_url self = None ->
  _get_services (self, w)
  = (inl (ValueError "No base URL was retrieved for this device."), (self, w)).
Proof.
  intros Hd Hb.
  unfold _get_services, _device_description_required, _base_url_required.
  run. rewrite Hd. simpl. rewrite Hb. reflexivity.
Qed.

(** X15: a [<URLBase>] element with nothing in it makes [_get_base_url]
    raise [AttributeError]: the [Location] header is not used instead, and
    the base URL of the device stays as it was. *)
Theorem empty_URLBase_raises (self : SSDPDevice.t) (w : world) (text : string)
    (location : pystr) (root : document) (e : node) (rest : list node) :
  SSDPDevice.description self = Some text ->
  parse_http_header (SSDPDevice.response self) "Location" = inr location ->
  parseString text = inr root ->
  getElementsByTagName root "URLBase" = e :: rest ->
  firstChild e = None ->
  _get_base_url (self, w) = (inl AttributeError, (self, record_event EvParse w)).
Proof.
  intros Hd Hl Hp He Hc.
  unfold _get_base_url, _device_description_required, parse, emit,
    first_node_value, index.
  run. rewrite Hd. simpl. rewrite Hl. simpl. rewrite Hd, Hp. simpl.
  rewrite He. simpl. rewrite Hc. reflexivity.
Qed.

(** X16: on a device whose description parses, [_get_type] takes the text
    of the first [<deviceType>] element of the document, stores it, prints
    it and returns it; without such an element it raises [IndexError] and
    leaves the type of the device as it was. *)
Theorem _get_type_first_deviceType (self : SSDPDevice.t) (w : world)
    (text : string) (root : document) :
  SSDPDevice.description self = Some text ->
  parseString text = inr root ->
  (forall e rest c,
      getElementsByTagName root "deviceType" = e :: rest ->
      firstChild e = Some c ->
      _get_type (self, w)
      = (inr (nodeValue c),
         (SSDPDevice.set_type_ (nodeValue c) self,
          record_event (EvPrint ("Device type " +:+ fmt (nodeValue c)))
            (record_event EvParse w))))
  /\ (getElementsByTagName root "deviceType" = [] ->
      _get_type (self, w) = (inl IndexError, (self, record_event EvParse w))).
Proof.
  intros Hd Hp. split.
  - intros e rest c He Hc.
    unfold _get_type, _device_description_required, parse, emit,
      first_node_value, index.
    run. rewrite Hd. simpl. rewrite Hd, Hp. simpl. rewrite He. simpl. rewrite Hc.
    reflexivity.
  - intros He.
    unfold _get_type, _device_description_required, parse, emit,
      first_node_value, index.
    run. rewrite Hd. simpl. rewrite Hd, Hp. simpl. rewrite He. reflexivity.
Qed.



(** *** The construction of a device *)

Lemma preserves_try {S A : Type} (P : S -> S -> Prop) (body handler : M S A) :
  (forall s1 s2 s3, P s1 s2 -> P s2 s3 -> P s1 s3) ->
  preserves P body -> preserves P handler ->
  preserves P (try_except_IndexError body handler).
Proof.
  intros Ht Hb Hh s r s' H. unfold try_except_IndexError in H.
  destruct (body s) as [[e|a] s1] eqn:E.
  - destruct e;
      [ eapply Ht; [eapply Hb; exact E | eapply Hh; exact H]
      | inversion H; subst; eapply Hb; exact E .. ].
  - inversion H; subst. eapply Hb; exact E.
Qed.

Lemma same_identity_refl s : same_identity s s.
Proof. repeat split. Qed.

Lemma same_identity_trans s1 s2 s3 :
  same_identity s1 s2 -> same_identity s2 s3 -> same_identity s1 s3.
Proof. intros (?&?&?&?&?) (?&?&?&?&?). repeat split; congruence. Qed.

Lemma same_description_refl s : same_description s s.
Proof. repeat split. Qed.

Lemma same_description_trans s1 s2 s3 :
  same_description s1 s2 -> same_description s2 s3 -> same_description s1 s3.
Proof. intros (?&?) (?&?). repeat split; congruence. Qed.

Ltac frame_step refl trans :=
  first
    [ apply (preserves_bind _ trans); [ | intros ? ]
    | apply (preserves_try _ _ _ trans)
    | apply preserves_on_self; exact refl
    | apply preserves_on_world; intros; repeat split
    | apply preserves_update_self; intros; repeat split
    | apply preserves_lift; exact refl
    | apply preserves_ret; exact refl
    | apply preserves_raise; exact refl
    | match goal with
      | |- preserves _ (match ?x with _ => _ end) => destruct x
      end ].

Lemma SSDPDevice_get_description_identity (url : pystr) :
  preserves same_identity (SSDPDevice_get_description url).
Proof.
  unfold SSDPDevice_get_description.
  repeat frame_step same_identity_refl same_identity_trans.
Qed.

Lemma _get_type_identity : preserves same_identity _get_type.
Proof.
  unfold _get_type, _device_description_required.
  repeat frame_step same_identity_refl same_identity_trans.
Qed.

Lemma _get_base_url_identity : preserves same_identity _get_base_url.
Proof.
  unfold _get_base_url, _device_description_required.
  repeat frame_step same_identity_refl same_identity_trans.
Qed.

Lemma _get_services_identity : preserves same_identity _get_services.
Proof.
  unfold _get_services, _device_description_required, _base_url_required.
  repeat frame_step same_identity_refl same_identity_trans.
Qed.

Lemma _get_base_url_description : preserves same_description _get_base_url.
Proof.
  unfold _get_base_url, _device_description_required.
  repeat frame_step same_description_refl same_description_trans.
Qed.

Lemma _get_services_description : preserves same_description _get_services.
Proof.
  unfold _get_services, _device_description_required, _base_url_required.
  repeat frame_step same_description_refl same_description_trans.
Qed.

(** The way [_get_type] returns. *)
Lemma _get_type_returns (self : SSDPDevice.t) (w : world) (v : pystr)
    (s' : SSDPDevice.t * world) :
  _get_type (self, w) = (inr v, s') ->
  exists text root,
    SSDPDevice.description self = Some text
    /\ parseString text = inr root
    /\ first_node_value (getElementsByTagName root "deviceType") = inr v
    /\ s'.1 = SSDPDevice.set_type_ v self.
Proof.
  intros H. unfold _get_type, _device_description_required, parse, emit in H. run.
  destruct (SSDPDevice.description self) as [text|] eqn:Hd; [|discriminate].
  simpl in H. rewrite Hd in H.
  destruct (parseString text) as [e|root] eqn:Hp; [discriminate|].
  simpl in H.
  destruct (first_node_value (getElementsByTagName root "deviceType")) as [e|v']
    eqn:Hv; [discriminate|].
  inversion H; subst. exists text, root. auto.
Qed.

(** X18: a device that [SSDPDevice] returns keeps the address and the
    response it was given, with the host and the port taken from the
    address; it has a description that parses, its type is the text of the
    first [<deviceType>] of that description, and it has a base URL. *)
Theorem SSDPDevice_init_returns (address : string * Z) (response : string)
    (w w' : world) (d : SSDPDevice.t) :
  SSDPDevice_init address response w = (inr d, w') ->
  SSDPDevice.address d = address
  /\ SSDPDevice.host d = address.1
  /\ SSDPDevice.port d = address.2
  /\ SSDPDevice.response d = response
  /\ SSDPDevice.selected_service d = None
  /\ (exists body root,
        SSDPDevice.description d = Some body
        /\ parseString body = inr root
        /\ first_node_value (getElementsByTagName root "deviceType")
           = inr (SSDPDevice.type_ d))
  /\ is_Some (SSDPDevice.base_url d).
Proof.
  intros H. unfold SSDPDevice_init, construct in H.
  match type of H with
  | context [bind ?c ?k (?self, w)] =>
      destruct (bind c k (self, w)) as [[e|m] [d1 w1]] eqn:E; [discriminate|]
  end.
  inversion H; subst d1 w1. clear H.
  apply bind_returns in E as (location & s0 & H0 & E).
  unfold lift in H0. inversion H0; subst s0. clear H0.
  apply bind_returns in E as (x1 & s1 & Hdesc & E).
  apply bind_returns in E as (v & s2 & Htype & E).
  apply bind_returns in E as (x3 & s3 & Hbase & E).
  pose proof (SSDPDevice_get_description_identity _ _ _ _ Hdesc) as I1.
  pose proof (_get_type_identity _ _ _ Htype) as I2.
  pose proof (_get_base_url_identity _ _ _ Hbase) as I3.
  pose proof (_get_services_identity _ _ _ E) as I4.
  pose proof (same_identity_trans _ _ _
                (same_identity_trans _ _ _ (same_identity_trans _ _ _ I1 I2) I3) I4)
    as (Ia & Ih & Ip & Ir & Is).
  simpl in Ia, Ih, Ip, Ir, Is.
  repeat (split; [congruence|]).
  destruct s1 as [d1 w1].
  destruct (_get_type_returns _ _ _ _ Htype) as (body & root & Hd & Hp & Hv & Hs2).
  pose proof (_get_base_url_description _ _ _ Hbase) as [D3 T3].
  pose proof (_get_services_description _ _ _ E) as [D4 T4].
  simpl in D4, T4.
  split.
  - exists body, root.
    rewrite <- D4, <- D3, <- T4, <- T3, Hs2. simpl. auto.
  - destruct s3 as [d3 w3].
    destruct (_get_services_returns _ _ _ _ E)
      as (text & base & _ & Hb & [(_ & _ & Heq) | (_ & root' & w'' & _ & _ & Heq)]);
      inversion Heq; subst; simpl; rewrite Hb; eauto.
Qed.

(** *** The gateway tool *)

(** The lookup of an undeclared name, as used by the methods of [Igd]. *)
Lemma unknown_action_raises_aux (self : Service.t) (m : gmap pystr Action.t)
    (action_name : string) (kwargs : list (string * pyvalue)) (w : world) :
  Service.actions self = ActionMap m ->
  m !! Some action_name = None ->
  Service_getattr self action_name = inl (KeyError action_name)
  /\ Service_call self action_name kwargs w = (inl (KeyError action_name), w).
Proof.
  intros Ha Hm.
  assert (H : Service_getattr self action_name = inl (KeyError action_name))
    by (unfold Service_getattr; rewrite Ha, Hm; reflexivity).
  split; [exact H|].
  unfold Service_call. run. rewrite H. reflexivity.
Qed.

(** X19: when the service of the gateway does not resolve
    [GetGenericPortMappingEntry], [GetPortMappings] swallows the error and
    returns the empty list, [HasPortMapping] returns [False], and nothing
    is sent. *)
Theorem undeclared_entry_action_gives_no_mappings (self : Igd.t) (port : Z)
    (protocol : pyvalue) (w : world) (e : exn) (fuel : nat) :
  Service_getattr (Igd.service self) "GetGenericPortMappingEntry" = inl e ->
  0 < fuel ->
  GetPortMappings fuel self w = Some ([], w)
  /\ HasPortMapping fuel self port protocol w = Some (inr false, w).
Proof.
  intros Ha Hfuel.
  assert (Hg : GetPortMappings fuel self w = Some ([], w)).
  { destruct fuel as [|fuel]; [lia|].
    unfold GetPortMappings. simpl. unfold Service_call. run. rewrite Ha. reflexivity. }
  split; [exact Hg|]. unfold HasPortMapping. rewrite Hg. reflexivity.
Qed.




(** X21: when the service resolves [GetGenericPortMappingEntry], an
    enumeration that collects [n] mappings sends [n + 1] requests, and
    nothing else happens to the log. *)
Theorem entries_cost_one_more_request (self : Igd.t) (a : Action.t) (i : nat)
    (w w' : world) (mappings : list (gmap string pyvalue)) :
  Service_getattr (Igd.service self) "GetGenericPortMappingEntry" = inr a ->
  entries self i w mappings w' ->
  log w' = log w ++ replicate (S (length mappings)) (EvSoap (Action.name a)).
Proof.
  intros Ha Hen.
  assert (Hq : forall j w0 r w1,
             entry_query self j w0 = (r, w1) ->
             log w1 = log w0 ++ [EvSoap (Action.name a)]).
  { intros j w0 r w1 H. unfold entry_query, Service_call, execute, soap, emit in H.
    run. rewrite Ha in H. simpl in H.
    destruct (SOAP_send (Igd.service self) a
                [("NewPortMappingIndex", VInt (Z.of_nat j))] (net w0)) as [r' n].
    inversion H; subst. reflexivity. }
  induction Hen as [i w w' e H | i w w1 w' mapping rest H _ IH].
  - rewrite (Hq _ _ _ _ H). reflexivity.
  - rewrite IH, (Hq _ _ _ _ H). rewrite <- app_assoc. reflexivity.
Qed.


(** X23: on a service that does not declare the action, [AddPortMapping]
    and [DeletePortMapping] raise the [KeyError] of the lookup as it is,
    not an [IgdError], and nothing is sent. *)
Theorem undeclared_mapping_action_is_not_IgdError (self : Igd.t) (port : Z)
    (protocol description : pyvalue) (w : world) (m : gmap pystr Action.t) :
  Service.actions (Igd.service self) = ActionMap m ->
  (m !! Some "AddPortMapping" = None ->
   AddPortMapping self port protocol description w
   = (inl (Uncaught (KeyError "AddPortMapping")), w))
  /\ (m !! Some "DeletePortMapping" = None ->
      DeletePortMapping self port protocol w
      = (inl (Uncaught (KeyError "DeletePortMapping")), w)).
Proof.
  intros Ha. split; intros Hm.
  - unfold AddPortMapping.
    rewrite (proj2 (unknown_action_raises_aux _ _ _ _ _ Ha Hm)). reflexivity.
  - unfold DeletePortMapping.
    rewrite (proj2 (unknown_action_raises_aux _ _ _ _ _ Ha Hm)). reflexivity.
Qed.

End Model.

(** ** The model at work on the sample network *)

Local Abbreviation demo_get_base_url :=
  (_get_base_url Demo.network Demo.parseString Demo.urlparse Demo.parse_http_header).
Local Abbreviation demo_get_services :=
  (_get_services Demo.network Demo.int Demo.make_http_request Demo.decode Demo.parseString
     Demo.parse_service_id).
Local Abbreviation demo_get_actions := (_get_actions Demo.network Demo.parseString).
Local Abbreviation demo_service_entry :=
  (service_entry Demo.network Demo.int Demo.make_http_request Demo.decode Demo.parseString
     Demo.parse_service_id).
Local Abbreviation demo_init :=
  (SSDPDevice_init Demo.network Demo.int Demo.make_http_request Demo.decode Demo.parseString
     Demo.urlparse Demo.parse_http_header Demo.parse_service_id).
Local Abbreviation demo_parsed := (record_event Demo.network EvParse).

Lemma service_type_and_version_witness :
  5 <= length (split ":" "urn:schemas-upnp-org:service:WANPPPConnection:2")
  /\ _get_service_type (Some "urn:schemas-upnp-org:service:WANPPPConnection:2")
     = inr "WANPPPConnection"
  /\ _get_service_version Demo.int
       (Some "urn:schemas-upnp-org:service:WANPPPConnection:2")
     = inr 2%Z
  /\ _get_service_version Demo.int
       (Some "urn:schemas-upnp-org:service:WANIPConnection:1")
     = inr 1%Z.
Proof.
  assert (H : 5 <= length (split ":" "urn:schemas-upnp-org:service:WANPPPConnection:2"))
    by (simpl; lia).
  split; [exact H|].
  destruct (service_type_and_version Demo.network Demo.int Demo.make_http_request
              Demo.decode Demo.parseString
              "urn:schemas-upnp-org:service:WANPPPConnection:2" H)
    as (Ht & Hv & _ & _ & Hone).
  split; [exact Ht|]. split; [exact Hv | exact (Hone eq_refl)].
Defined.

Lemma invalid_direction_is_an_error_witness :
  Exists bad_direction Demo.bad_arguments
  /\ exists msg,
      Action_init (Some "ForceTermination") Demo.bad_arguments = inl (ValueError msg)
      /\ demo_get_actions (Demo.fresh_service "bad scpd", Demo.quiet)
         = (inl (ValueError msg), (Demo.fresh_service "bad scpd", demo_parsed Demo.quiet)).
Proof.
  assert (H : Exists bad_direction Demo.bad_arguments)
    by (right; left; split; discriminate).
  split; [exact H|].
  apply (invalid_direction_is_an_error Demo.network Demo.parseString
           (Demo.fresh_service "bad scpd") Demo.quiet "bad scpd"
           (Demo.scpd_document
              [Demo.action_plain; Demo.action_bad_direction; Demo.action_entry])
           [Demo.action_plain] [Demo.action_entry] Demo.action_bad_direction
           (Some "ForceTermination") Demo.bad_arguments).
  - reflexivity.
  - reflexivity.
  - reflexivity.
  - constructor; [eexists; reflexivity | constructor].
  - reflexivity.
  - exact H.
Defined.

Lemma action_without_argument_list_witness :
  action_of Demo.action_plain
  = inr (Some "RequestConnection",
         {| Action.name := Some "RequestConnection"; Action.arguments := [];
            Action.args_in := []; Action.args_out := [] |}).
Proof.
  apply (action_without_argument_list Demo.action_plain (Some "RequestConnection") ∅);
    reflexivity.
Defined.

Lemma unknown_action_raises_witness :
  Service_attribute Demo.builtin_attribute "AddPortMapping" = false
  /\ Service_getattribute Demo.builtin_attribute Demo.wanip_service "AddPortMapping"
     = inl (KeyError "AddPortMapping")
  /\ Service_call Demo.network Demo.SOAP_send Demo.wanip_service "AddPortMapping"
       [("NewExternalPort", VInt 80)] Demo.quiet
     = (inl (KeyError "AddPortMapping"), Demo.quiet).
Proof.
  assert (Hattr : Service_attribute Demo.builtin_attribute "AddPortMapping" = false)
    by (vm_compute; reflexivity).
  split; [exact Hattr|].
  apply (unknown_action_raises Demo.network Demo.SOAP_send Demo.builtin_attribute
           Demo.wanip_service
           {[ Some "GetGenericPortMappingEntry" := Demo.entry_action ]}).
  - reflexivity.
  - vm_compute. reflexivity.
  - exact Hattr.
Defined.

(** C9, as it is claimed, fails: [id] and [_get_description] are not keys
    of the action map, and attribute access finds them on the service
    without calling [__getattr__], so no [KeyError] is raised. *)
Lemma ordinary_attribute_is_not_unknown_action :
  Service.actions Demo.wanip_service
  = ActionMap {[ Some "GetGenericPortMappingEntry" := Demo.entry_action ]}
  /\ ({[ Some "GetGenericPortMappingEntry" := Demo.entry_action ]}
      : gmap pystr Action.t) !! Some "id" = None
  /\ ({[ Some "GetGenericPortMappingEntry" := Demo.entry_action ]}
      : gmap pystr Action.t) !! Some "_get_description" = None
  /\ Service_getattribute Demo.builtin_attribute Demo.wanip_service "id" = inr Ordinary
  /\ Service_getattribute Demo.builtin_attribute Demo.wanip_service "_get_description"
     = inr Ordinary
  /\ Service_getattribute Demo.builtin_attribute Demo.wanip_service "id"
     <> inl (KeyError "id").
Proof.
  split; [reflexivity|].
  split; [vm_compute; reflexivity|].
  split; [vm_compute; reflexivity|].
  split; [vm_compute; reflexivity|].
  split; [vm_compute; reflexivity|].
  vm_compute. discriminate.
Qed.


(** C4, as it is claimed, fails: the first declared service cannot be
    fetched, the second one can, and the second one is not in the services
    of the device; [_get_services] raises and the constructor of the device
    raises with it. *)
Lemma sibling_services_are_not_built :
  demo_get_services (Demo.device "device with unreachable service", Demo.quiet)
  = (inl (ExternalError "URLError"),
     (Demo.device "device with unreachable service",
      {| net := Demo.home;
         log := [EvParse; EvHttp (Some "http://10.0.0.1:5000/missing.xml")] |}))
  /\ getElementsByTagName
       (Demo.device_document [] [Demo.unreachable; Demo.wanip]) "service"
     = [Demo.unreachable; Demo.wanip]
  /\ SSDPDevice.services (Demo.device "device with unreachable service")
       !! "WANIPConn1" = None
  /\ (demo_init ("10.0.0.1", 1900%Z) "Location: http://10.0.0.1:5000/unreachable.xml"
         Demo.quiet).1
     = inl (ExternalError "URLError")
  /\ (exists svc w,
        demo_service_entry (Some "http://10.0.0.1:5000") Demo.wanip ∅ Demo.quiet
        = (inr {[ "WANIPConn1" := svc ]}, w)).
Proof.
  split; [vm_compute; reflexivity|].
  split; [reflexivity|].
  split; [reflexivity|].
  split; [vm_compute; reflexivity|].
  do 2 eexists. vm_compute. reflexivity.
Qed.

Lemma scpd_failure_aborts_services_witness :
  let w2 : World Demo.network :=
    {| net := Demo.home_late;
       log := log Demo.world_late_built
              ++ [EvHttp (Some ("http://10.0.0.1:5000" +:+ "/missing.xml"))] |} in
  Demo.world_late_built.(log)
  = log Demo.world_late
    ++ [EvParse; EvHttp (Some "http://10.0.0.1:5000/wanip.xml"); EvParse]
  /\ _get_services Demo.network Demo.int Demo.make_http_request Demo.decode
       Demo.parseString_late Demo.parse_service_id (Demo.device_late, Demo.world_late)
     = (inl (ExternalError "URLError"), (Demo.device_late, w2))
  /\ SSDPDevice_init Demo.network Demo.int Demo.make_http_request Demo.decode
       Demo.parseString_late Demo.urlparse Demo.parse_http_header
       Demo.parse_service_id ("10.0.0.1", 1900%Z) Demo.location_late
       {| net := Demo.home_late; log := [] |}
     = (inl (ExternalError "URLError"), w2).
Proof.
  intros w2. split; [reflexivity|].
  destruct (scpd_failure_aborts_services Demo.network Demo.int Demo.make_http_request
              Demo.decode Demo.parseString_late Demo.urlparse Demo.parse_http_header
              Demo.parse_service_id
              Demo.device_late Demo.world_late Demo.world_late_built
              "device with late failure" "http://10.0.0.1:5000" "/missing.xml"
              "L3Forwarding1" "Layer3Forwarding" 1%Z Demo.late_document
              [Demo.wanip] [Demo.wanppp] Demo.unreachable
              {[ "WANIPConn1" := Demo.wanip_built ]}
              {| f_service_string := Some "urn:schemas-upnp-org:service:Layer3Forwarding:1";
                 f_service_id := Some "urn:upnp-org:serviceId:L3Forwarding1";
                 f_scpd_url := Some "/missing.xml";
                 f_control_url := Some "/ctl";
                 f_event_sub_url := Some "/evt" |}
              (ExternalError "URLError") Demo.home_late)
    as [Hget Hinit].
  - reflexivity.
  - reflexivity.
  - reflexivity.
  - reflexivity.
  - reflexivity.
  - vm_compute. reflexivity.
  - reflexivity.
  - reflexivity.
  - vm_compute. reflexivity.
  - reflexivity.
  - reflexivity.
  - reflexivity.
  - vm_compute. reflexivity.
  - split; [exact Hget|].
    apply (Hinit ("10.0.0.1", 1900%Z) Demo.location_late
             {| net := Demo.home_late; log := [] |} "http://10.0.0.1:5000").
    vm_compute. reflexivity.
Defined.

(** C5 (the code departs from it): on a device that declares no service,
    the dictionary [_get_services] computes is empty, the guard of the cache
    takes it for a dictionary not computed yet, and the second call parses
    the description again. *)
Lemma empty_services_are_parsed_again :
  exists s1 s2,
    demo_get_services (Demo.device "device without services", Demo.quiet) = (inr ∅, s1)
    /\ demo_get_services s1 = (inr ∅, s2)
    /\ log s1.2 = [EvParse]
    /\ log s2.2 = [EvParse; EvParse]
    /\ s2 <> s1.
Proof.
  do 2 eexists.
  split; [vm_compute; reflexivity|].
  split; [vm_compute; reflexivity|].
  split; [reflexivity|].
  split; [reflexivity|].
  intros H. apply (f_equal (fun s => length (log s.2))) in H.
  vm_compute in H. discriminate.
Qed.

Lemma services_cached_when_nonempty_witness :
  let s' := (demo_get_services (Demo.device "device without URLBase", Demo.quiet)).2 in
  let m := SSDPDevice.services s'.1 in
  demo_get_services (Demo.device "device without URLBase", Demo.quiet) = (inr m, s')
  /\ m <> ∅
  /\ demo_get_services s' = (inr m, s')
  /\ log s'.2
     = [EvParse; EvHttp (Some "http://10.0.0.1:5000/wanip.xml"); EvParse;
        EvHttp (Some "http://10.0.0.1:5000/wanppp.xml"); EvParse].
Proof.
  intros s' m.
  assert (H : demo_get_services (Demo.device "device without URLBase", Demo.quiet)
              = (inr m, s')) by (vm_compute; reflexivity).
  assert (Hm : m <> ∅).
  { intros E. apply (f_equal (fun x => x !! "WANIPConn1")) in E.
    vm_compute in E. discriminate. }
  destruct (services_cached_when_nonempty Demo.network Demo.int Demo.make_http_request
              Demo.decode Demo.parseString Demo.parse_service_id _ _ _ _ H)
    as [Hcached _].
  split; [exact H|]. split; [exact Hm|].
  split; [exact (proj2 (Hcached Hm 0)) | vm_compute; reflexivity].
Defined.

Lemma first_service_occurrence_is_kept_witness :
  let run := demo_get_services (Demo.device "device with duplicate", Demo.quiet) in
  let m := match run.1 with inr m => m | inl _ => ∅ end in
  run = (inr m, run.2)
  /\ m !! "WANIPConn1" = Some Demo.wanip_built
  /\ (exists svc w1 w2,
        Service_init Demo.network Demo.int Demo.make_http_request Demo.decode
          Demo.parseString
          (Some "urn:schemas-upnp-org:service:WANIPConnection:1")
          (Some "urn:upnp-org:serviceId:WANIPConn1") (Some "/wanip.xml")
          (Some "/ctl") (Some "/evt") (Some "http://10.0.0.1:5000") w1
        = (inr svc, w2)
        /\ m !! "WANIPConn1" = Some svc)
  /\ demo_service_entry (Some "http://10.0.0.1:5000") Demo.wanip_again m Demo.quiet
     = (inr m, Demo.quiet).
Proof.
  intros run m.
  assert (H : demo_get_services (Demo.device "device with duplicate", Demo.quiet)
              = (inr m, run.2))
    by (vm_compute; reflexivity).
  assert (Hbuilt : m !! "WANIPConn1" = Some Demo.wanip_built)
    by (vm_compute; reflexivity).
  split; [exact H|]. split; [exact Hbuilt|].
  destruct (first_service_occurrence_is_kept Demo.network Demo.int
              Demo.make_http_request Demo.decode Demo.parseString
              Demo.parse_service_id
              (Demo.device "device with duplicate") Demo.quiet
              "device with duplicate" "http://10.0.0.1:5000" "WANIPConn1"
              (Demo.device_document [] [Demo.wanip; Demo.wanip_again; Demo.wanppp])
              [] [Demo.wanip_again; Demo.wanppp] Demo.wanip
              {| f_service_string := Some "urn:schemas-upnp-org:service:WANIPConnection:1";
                 f_service_id := Some "urn:upnp-org:serviceId:WANIPConn1";
                 f_scpd_url := Some "/wanip.xml";
                 f_control_url := Some "/ctl";
                 f_event_sub_url := Some "/evt" |}
              m run.2 eq_refl eq_refl eq_refl eq_refl eq_refl eq_refl eq_refl
              (Forall_nil_2 _) H)
    as [(svc & w1 & w2 & Hinit & Hm & _) Hdup].
  split.
  - exists svc, w1, w2. split; [exact Hinit | exact Hm].
  - apply (Hdup Demo.wanip_again
             {| f_service_string := Some "urn:schemas-upnp-org:service:WANIPConnection:2";
                f_service_id := Some "urn:upnp-org:serviceId:WANIPConn1";
                f_scpd_url := Some "/missing.xml";
                f_control_url := Some "/ctl";
                f_event_sub_url := Some "/evt" |}
             m Demo.quiet eq_refl eq_refl).
    exists Demo.wanip_built. exact Hbuilt.
Defined.

(** A description that declares the key [WANIPConn1] twice: the services
    are built, the first declaration (version 1) is the one kept, and the
    SCPD document of the second is never requested. *)
Example duplicate_service_run :
  let r := demo_get_services (Demo.device "device with duplicate", Demo.quiet) in
  option_map Service.version (SSDPDevice.services r.2.1 !! "WANIPConn1") = Some 1%Z
  /\ log r.2.2
     = [EvParse; EvHttp (Some "http://10.0.0.1:5000/wanip.xml"); EvParse;
        EvHttp (Some "http://10.0.0.1:5000/wanppp.xml"); EvParse].
Proof. split; vm_compute; reflexivity. Qed.



(** ** More runs on the sample network *)

Local Abbreviation demo_Service_init :=
  (Service_init Demo.network Demo.int Demo.make_http_request Demo.decode Demo.parseString).
Local Abbreviation demo_get_type := (_get_type Demo.network Demo.parseString).
Local Abbreviation demo_call := (Service_call Demo.network Demo.SOAP_send).

Lemma Action_init_first_bad_argument_witness :
  Action_init (Some "ForceTermination")
    ([Demo.good_argument] ++ Demo.inout_argument :: [])
  = inl (ValueError (direction_message Demo.inout_argument)).
Proof.
  apply (Action_init_first_bad_argument (Some "ForceTermination")
           [Demo.good_argument] [] Demo.inout_argument).
  - constructor; [left; reflexivity | constructor].
  - split; discriminate.
Defined.

Lemma last_action_occurrence_is_kept_witness :
  exists m,
    actions_of ([Demo.action_entry] ++ Demo.action_entry_short :: [Demo.action_plain]) ∅
    = inr m
    /\ m !! Some "GetGenericPortMappingEntry"
       = Some (Demo.plain_action "GetGenericPortMappingEntry").
Proof.
  eexists. split; [reflexivity|].
  apply (last_action_occurrence_is_kept [Demo.action_entry] [Demo.action_plain]
           Demo.action_entry_short ∅).
  - reflexivity.
  - reflexivity.
  - constructor; [|constructor].
    intros ka H. vm_compute in H. inversion H; subst. simpl. discriminate.
Defined.

Lemma actions_of_keys_witness :
  exists m,
    actions_of [Demo.action_plain] ∅ = inr m
    /\ (is_Some (m !! Some "RequestConnection")
        <-> is_Some ((∅ : gmap pystr Action.t) !! Some "RequestConnection")
            \/ exists element built,
                 element ∈ [Demo.action_plain]
                 /\ action_of element = inr (Some "RequestConnection", built)).
Proof.
  eexists. split; [reflexivity|].
  apply (actions_of_keys [Demo.action_plain] ∅). reflexivity.
Defined.

Lemma registered_actions_resolve_witness :
  let m : gmap pystr Action.t :=
    <[ Some "GetGenericPortMappingEntry" := Demo.entry_action ]>
      (<[ Some "RequestConnection" := Demo.plain_action "RequestConnection" ]> ∅) in
  let self' := Service.set_actions (ActionMap m) (Demo.fresh_service "wanip scpd") in
  demo_get_actions (Demo.fresh_service "wanip scpd", Demo.quiet)
  = (inr m, (self', demo_parsed Demo.quiet))
  /\ exists a,
      Service_getattribute Demo.builtin_attribute self' "GetGenericPortMappingEntry"
      = inr (Execute a)
      /\ Action.name a = Some "GetGenericPortMappingEntry"
      /\ m !! Some "GetGenericPortMappingEntry" = Some a.
Proof.
  intros m self'.
  assert (H : demo_get_actions (Demo.fresh_service "wanip scpd", Demo.quiet)
              = (inr m, (self', demo_parsed Demo.quiet)))
    by (vm_compute; reflexivity).
  split; [exact H|].
  apply (registered_actions_resolve Demo.network Demo.parseString
           Demo.builtin_attribute
           (Demo.fresh_service "wanip scpd") self' Demo.quiet
           (demo_parsed Demo.quiet) m "wanip scpd"
           (Demo.scpd_document [Demo.action_plain; Demo.action_entry])
           Demo.action_entry "GetGenericPortMappingEntry" Demo.entry_action H).
  - reflexivity.
  - reflexivity.
  - change (Demo.action_entry ∈ [Demo.action_plain; Demo.action_entry]).
    apply elem_of_cons. right. apply elem_of_cons. left. reflexivity.
  - reflexivity.
  - vm_compute. reflexivity.
Defined.


Lemma Service_init_short_type_string_witness :
  demo_Service_init (Some "urn:schemas-upnp-org:service:WANIPConnection")
    (Some "urn:upnp-org:serviceId:WANIPConn1") (Some "/wanip.xml") (Some "/ctl")
    (Some "/evt") (Some "http://10.0.0.1:5000") Demo.quiet
  = (inl IndexError, Demo.quiet).
Proof.
  apply (Service_init_short_type_string Demo.network Demo.int Demo.make_http_request
           Demo.decode Demo.parseString).
  simpl. lia.
Defined.

Lemma Service_init_url_is_None_witness :
  demo_Service_init (Some "urn:schemas-upnp-org:service:WANIPConnection:1")
    (Some "urn:upnp-org:serviceId:WANIPConn1") (Some "/wanip.xml") (Some "/ctl")
    (Some "/evt") None Demo.quiet
  = (inl TypeError, Demo.quiet).
Proof.
  apply (Service_init_url_is_None Demo.network Demo.int Demo.make_http_request Demo.decode
           Demo.parseString _ _ _ _ _ _ "WANIPConnection" 1%Z).
  - reflexivity.
  - reflexivity.
  - left. reflexivity.
Defined.

Lemma services_keys_are_the_declared_ids_witness :
  let run := demo_get_services (Demo.device "device without URLBase", Demo.quiet) in
  let m := match run.1 with inr m => m | inl _ => ∅ end in
  run = (inr m, run.2) /\ is_Some (m !! "WANPPPConn1").
Proof.
  intros run m.
  assert (H : demo_get_services (Demo.device "device without URLBase", Demo.quiet)
              = (inr m, run.2))
    by (vm_compute; reflexivity).
  split; [exact H|].
  apply (services_keys_are_the_declared_ids Demo.network Demo.int Demo.make_http_request
           Demo.decode Demo.parseString Demo.parse_service_id
           (Demo.device "device without URLBase") Demo.quiet "device without URLBase"
           (Demo.device_document [] [Demo.wanip; Demo.wanppp]) m run.2 "WANPPPConn1"
           eq_refl eq_refl eq_refl H).
  exists Demo.wanppp,
    {| f_service_string := Some "urn:schemas-upnp-org:service:WANPPPConnection:1";
       f_service_id := Some "urn:upnp-org:serviceId:WANPPPConn1";
       f_scpd_url := Some "/wanppp.xml";
       f_control_url := Some "/ctl";
       f_event_sub_url := Some "/evt" |}.
  split; [|split; reflexivity].
  change (Demo.wanppp ∈ [Demo.wanip; Demo.wanppp]).
  apply elem_of_cons. right. apply elem_of_cons. left. reflexivity.
Defined.

Lemma services_are_fully_built_witness :
  let run := demo_get_services (Demo.device "device without URLBase", Demo.quiet) in
  let m := match run.1 with inr m => m | inl _ => ∅ end in
  let svc :=
    Service.set_actions
      (ActionMap
         (<[ Some "GetGenericPortMappingEntry" := Demo.entry_action ]>
            (<[ Some "RequestConnection" := Demo.plain_action "RequestConnection" ]> ∅)))
      (Demo.fresh_service "wanip scpd") in
  run = (inr m, run.2)
  /\ m !! "WANIPConn1" = Some svc
  /\ Demo.parse_service_id (Service.id svc) = inr "WANIPConn1"
  /\ Service.base_url svc = Some "http://10.0.0.1:5000".
Proof.
  intros run m svc.
  assert (H : demo_get_services (Demo.device "device without URLBase", Demo.quiet)
              = (inr m, run.2))
    by (vm_compute; reflexivity).
  assert (Hm : m !! "WANIPConn1" = Some svc) by (vm_compute; reflexivity).
  split; [exact H|]. split; [exact Hm|].
  destruct (services_are_fully_built Demo.network Demo.int Demo.make_http_request Demo.decode
              Demo.parseString Demo.parse_service_id
              (Demo.device "device without URLBase") Demo.quiet m run.2 "WANIPConn1"
              svc eq_refl H Hm) as (Hid & Hbase & _).
  split; [exact Hid | exact Hbase].
Defined.

Lemma description_is_required_witness :
  let self := SSDPDevice.set_description None (Demo.device "device without URLBase") in
  let e := ValueError "No device description retrieved for this device." in
  demo_get_type (self, Demo.quiet) = (inl e, (self, Demo.quiet))
  /\ demo_get_base_url (self, Demo.quiet) = (inl e, (self, Demo.quiet))
  /\ demo_get_services (self, Demo.quiet) = (inl e, (self, Demo.quiet)).
Proof.
  intros self.
  apply (description_is_required Demo.network Demo.int Demo.make_http_request Demo.decode
           Demo.parseString Demo.urlparse Demo.parse_http_header Demo.parse_service_id
           self Demo.quiet).
  reflexivity.
Defined.

Lemma base_url_is_required_witness :
  let self := SSDPDevice.set_base_url None (Demo.device "device without URLBase") in
  demo_get_services (self, Demo.quiet)
  = (inl (ValueError "No base URL was retrieved for this device."), (self, Demo.quiet)).
Proof.
  intros self.
  apply (base_url_is_required Demo.network Demo.int Demo.make_http_request Demo.decode
           Demo.parseString Demo.parse_service_id self Demo.quiet
           "device without URLBase");
    reflexivity.
Defined.

Lemma empty_URLBase_raises_witness :
  _get_base_url Demo.network
    (fun _ => inr (Demo.device_document [Element "URLBase" []] [Demo.wanip]))
    Demo.urlparse Demo.parse_http_header
    (Demo.device "device with an empty URLBase", Demo.quiet)
  = (inl AttributeError,
     (Demo.device "device with an empty URLBase", demo_parsed Demo.quiet)).
Proof.
  apply (empty_URLBase_raises Demo.network
           (fun _ => inr (Demo.device_document [Element "URLBase" []] [Demo.wanip]))
           Demo.urlparse Demo.parse_http_header
           (Demo.device "device with an empty URLBase") Demo.quiet
           "device with an empty URLBase" (Some "http://10.0.0.1:5000/desc.xml")
           (Demo.device_document [Element "URLBase" []] [Demo.wanip])
           (Element "URLBase" []) []);
    reflexivity.
Defined.

Lemma _get_type_first_deviceType_witness :
  demo_get_type (Demo.device "device without URLBase", Demo.quiet)
  = (inr (Some "urn:schemas-upnp-org:device:InternetGatewayDevice:1"),
     (SSDPDevice.set_type_ (Some "urn:schemas-upnp-org:device:InternetGatewayDevice:1")
        (Demo.device "device without URLBase"),
      record_event Demo.network
        (EvPrint "Device type urn:schemas-upnp-org:device:InternetGatewayDevice:1")
        (demo_parsed Demo.quiet)))
  /\ _get_type Demo.network (fun _ => inr []) (Demo.device "nothing", Demo.quiet)
     = (inl IndexError, (Demo.device "nothing", demo_parsed Demo.quiet)).
Proof.
  split.
  - refine (proj1 (_get_type_first_deviceType Demo.network Demo.parseString
                     (Demo.device "device without URLBase") Demo.quiet
                     "device without URLBase"
                     (Demo.device_document [] [Demo.wanip; Demo.wanppp])
                     eq_refl eq_refl)
              (Demo.text "deviceType"
                 "urn:schemas-upnp-org:device:InternetGatewayDevice:1")
              []
              (Text "urn:schemas-upnp-org:device:InternetGatewayDevice:1")
              eq_refl eq_refl).
  - refine (proj2 (_get_type_first_deviceType Demo.network (fun _ => inr [])
                     (Demo.device "nothing") Demo.quiet "nothing" []
                     eq_refl eq_refl)
              eq_refl).
Defined.


Lemma SSDPDevice_init_returns_witness :
  let run := demo_init ("10.0.0.1", 1900%Z) Demo.location Demo.quiet in
  let d := match run.1 with inr d => d | inl _ => Demo.device EmptyString end in
  run = (inr d, run.2)
  /\ SSDPDevice.host d = "10.0.0.1"
  /\ SSDPDevice.port d = 1900%Z
  /\ is_Some (SSDPDevice.base_url d).
Proof.
  intros run d.
  assert (H : demo_init ("10.0.0.1", 1900%Z) Demo.location Demo.quiet = (inr d, run.2))
    by (vm_compute; reflexivity).
  split; [exact H|].
  destruct (SSDPDevice_init_returns Demo.network Demo.int Demo.make_http_request Demo.decode
              Demo.parseString Demo.urlparse Demo.parse_http_header
              Demo.parse_service_id ("10.0.0.1", 1900%Z) Demo.location Demo.quiet
              run.2 d H)
    as (_ & Hhost & Hport & _ & _ & _ & Hbase).
  split; [exact Hhost|]. split; [exact Hport | exact Hbase].
Defined.

Lemma undeclared_entry_action_gives_no_mappings_witness :
  let self := {| Igd.local_ip := None; Igd.service := Demo.mapping_service |} in
  GetPortMappings Demo.network Demo.SOAP_send 1 self Demo.forwarding
  = Some ([], Demo.forwarding)
  /\ HasPortMapping Demo.network Demo.SOAP_send 1 self 80 (VStr "TCP") Demo.forwarding
     = Some (inr false, Demo.forwarding).
Proof.
  intros self.
  apply (undeclared_entry_action_gives_no_mappings Demo.network Demo.SOAP_send self 80
           (VStr "TCP") Demo.forwarding (KeyError "GetGenericPortMappingEntry") 1).
  - vm_compute. reflexivity.
  - lia.
Defined.


Lemma entries_cost_one_more_request_witness :
  exists w',
    entries Demo.network Demo.SOAP_send Demo.gateway 0 Demo.forwarding
      [Demo.mapping "22" "TCP"; Demo.mapping "80" "TCP"] w'
    /\ log w'
       = log Demo.forwarding
         ++ replicate 3 (EvSoap (Some "GetGenericPortMappingEntry")).
Proof.
  eexists.
  assert (Hen : entries Demo.network Demo.SOAP_send Demo.gateway 0 Demo.forwarding
                  [Demo.mapping "22" "TCP"; Demo.mapping "80" "TCP"]
                  (Nat.iter 3
                     (record_event Demo.network
                        (EvSoap (Some "GetGenericPortMappingEntry")))
                     Demo.forwarding)).
  { eapply entries_next; [vm_compute; reflexivity|].
    eapply entries_next; [vm_compute; reflexivity|].
    eapply entries_stop with (e := ExternalError "SOAPError 713").
    vm_compute. reflexivity. }
  split; [exact Hen|].
  refine (entries_cost_one_more_request Demo.network Demo.SOAP_send Demo.gateway
            Demo.entry_action 0 Demo.forwarding _
            [Demo.mapping "22" "TCP"; Demo.mapping "80" "TCP"] _ Hen).
  vm_compute. reflexivity.
Defined.


Lemma undeclared_mapping_action_is_not_IgdError_witness :
  AddPortMapping Demo.network Demo.SOAP_send Demo.soap_error Demo.gateway 80
    (VStr "TCP") (VStr "web") Demo.quiet
  = (inl (Uncaught (KeyError "AddPortMapping")), Demo.quiet)
  /\ DeletePortMapping Demo.network Demo.SOAP_send Demo.soap_error Demo.gateway 80
       (VStr "TCP") Demo.quiet
     = (inl (Uncaught (KeyError "DeletePortMapping")), Demo.quiet).
Proof.
  destruct (undeclared_mapping_action_is_not_IgdError Demo.network Demo.SOAP_send
              Demo.soap_error Demo.gateway 80 (VStr "TCP") (VStr "web") Demo.quiet
              {[ Some "GetGenericPortMappingEntry" := Demo.entry_action ]} eq_refl)
    as [Ha Hd].
  split; [apply Ha | apply Hd]; vm_compute; reflexivity.
Defined.

(** ** Properties of the builtins *)

Example split_urn :
  split ":" "urn:schemas-upnp-org:service:WANIPConnection:1"
  = ["urn"; "schemas-upnp-org"; "service"; "WANIPConnection"; "1"].
Proof. reflexivity. Qed.

Example int_samples :
  Demo.int "1" = inr 1%Z /\ Demo.int " -12 " = inr (-12)%Z
  /\ Demo.int "1_0" = inr 10%Z
  /\ Demo.int "1__0" = inl (ValueError "invalid literal for int() with base 10")
  /\ Demo.int EmptyString = inl (ValueError "invalid literal for int() with base 10")
  /\ py_str 80 = "80" /\ py_str 0 = "0" /\ py_str (-5) = "-5".
Proof. repeat split; reflexivity. Qed.

